(** * Seismograph: suite lifecycle, runtime shims and the mock-server launcher

    A shallow embedding of three modules of the seismograph test framework:

    - [seismograph/utils/pyv.py]            (module [pyv] below),
    - [seismograph/ext/mock_server/__main__.py] (module [mock_server]),
    - [seismograph/suite.py]                (module [suite]).

    Python objects are records, raised exceptions are values of [exn]
    carried by the [Raise] constructor of [result], and code that mutates
    objects is written in a state-and-exception monad over an explicit
    world.  Collaborators whose code is outside these three modules are
    either fields of a type class (their behaviour is a parameter) or are
    modelled from the written specification, which is then said in the
    comment of the definition. *)

From Stdlib Require Import ZArith String Ascii List Bool Lia.
From stdpp Require Import base gmap strings list.

Local Open Scope string_scope.
Local Open Scope list_scope.

(* ===================================================================== *)
(** * Part I.  Definitions                                               *)
(* ===================================================================== *)

(** ** Python exceptions and results *)

(** An exception instance: the name of its class, the names of the base
    classes known for that class, and its message.  The classes defined in
    [seismograph/exceptions.py] have no known base listed here; every
    exception derives from [BaseException]. *)
Record exn : Type := Exn {
  exc_class : string;
  exc_bases : list string;
  exc_msg   : string
}.

#[global] Instance exn_eq_dec : EqDecision exn.
Proof. solve_decision. Defined.

(** [isinstance(e, cls)], which is what an [except cls:] clause tests. *)
Definition isinstance (e : exn) (cls : string) : bool :=
  String.eqb cls "BaseException"
  || String.eqb cls (exc_class e)
  || existsb (String.eqb cls) (exc_bases e).

(** [isinstance(e, classes)] for a tuple of classes. *)
Definition isinstance_any (e : exn) (classes : list string) : bool :=
  existsb (isinstance e) classes.

(** Built-in exception classes with their built-in bases. *)
Definition KeyError (msg : string) : exn :=
  Exn "KeyError" ["LookupError"; "Exception"] msg.
Definition ValueError (msg : string) : exn :=
  Exn "ValueError" ["Exception"] msg.
Definition RuntimeError (msg : string) : exn :=
  Exn "RuntimeError" ["Exception"] msg.
Definition AssertionError (msg : string) : exn :=
  Exn "AssertionError" ["Exception"] msg.
Definition AttributeError (msg : string) : exn :=
  Exn "AttributeError" ["Exception"] msg.
Definition UnicodeDecodeError (msg : string) : exn :=
  Exn "UnicodeDecodeError" ["UnicodeError"; "ValueError"; "Exception"] msg.
Definition SystemExit (msg : string) : exn :=
  Exn "SystemExit" [] msg.

(** Classes of [seismograph.exceptions]. *)
Definition PyVersionError (msg : string) : exn :=
  Exn "PyVersionError" [] msg.
Definition ExtensionNotRequired (name : string) : exn :=
  Exn "ExtensionNotRequired" [] name.

(** The outcome of evaluating a Python expression or call. *)
Inductive result (A : Type) : Type :=
| Ok (a : A)
| Raise (e : exn).
Arguments Ok {A} a.
Arguments Raise {A} e.

Definition is_ok {A} (r : result A) : bool :=
  match r with Ok _ => true | Raise _ => false end.

(** The double-quote character, for messages that quote a name. *)
Definition dquote : string := String "034"%char EmptyString.

(** Python truthiness of an optional string ([None] and [''] are falsy). *)
Definition truthy (o : option string) : bool :=
  match o with
  | Some s => negb (String.eqb s "")
  | None => false
  end.

(* --------------------------------------------------------------------- *)
(** ** seismograph/utils/pyv.py                                          *)
(* --------------------------------------------------------------------- *)

(** The interpreter the program runs on: [IS_PYTHON_3] is computed once
    from [sys.version_info] when [pyv] is imported. *)
Class Interpreter : Type := { IS_PYTHON_3 : bool }.

Definition python2 : Interpreter := {| IS_PYTHON_3 := false |}.
Definition python3 : Interpreter := {| IS_PYTHON_3 := true |}.

Module pyv.

Definition IS_PYTHON_2 `{Interpreter} : bool := negb IS_PYTHON_3.

(** [check_gevent_supported()] *)
Definition check_gevent_supported `{Interpreter} : result unit :=
  if IS_PYTHON_3
  then Raise (PyVersionError "gevent lib not supported with python 3")
  else Ok tt.

(** A Python value as [unicode_string] sees it: what [unicode(v)] does,
    and what [v.decode('utf-8')] does, [None] standing for a value that
    has no [decode] attribute. *)
#[local] Set Warnings "-register-all".
Inductive pyobject : Type :=
| PyObject (to_unicode : result string)
           (decode_method : option (result pyobject)).

(** [unicode(v)] ([str(v)] on Python 3, where [unicode = str]). *)
Definition unicode (v : pyobject) : result string :=
  match v with PyObject u _ => u end.

(** [v.decode('utf-8')]: the attribute lookup fails with [AttributeError]
    on a value without the method. *)
Definition decode_utf8 (v : pyobject) : result pyobject :=
  match v with
  | PyObject _ (Some r) => r
  | PyObject _ None =>
      Raise (AttributeError "object has no attribute 'decode'")
  end.

(** The retry of [unicode_string]: [unicode(string.decode('utf-8'))]. *)
Definition retry (value : pyobject) : result string :=
  match decode_utf8 value with
  | Ok decoded => unicode decoded
  | Raise e => Raise e
  end.

(** [unicode_string(string)], the argument being [value] here:
<<
    try:
        return unicode(string)
    except UnicodeDecodeError as e:
        try:
            return unicode(string.decode('utf-8'))
        except AttributeError:
            raise e
>> *)
Definition unicode_string (value : pyobject) : result string :=
  match unicode value with
  | Ok text => Ok text
  | Raise e =>
      if isinstance e "UnicodeDecodeError" then
        match retry value with
        | Ok text => Ok text
        | Raise e' =>
            if isinstance e' "AttributeError" then Raise e else Raise e'
        end
      else Raise e
  end.

(** Sample values.  On Python 2 the byte string ['\xff'] is neither ASCII
    nor UTF-8: [unicode('\xff')] fails in the ascii codec and
    ['\xff'.decode('utf-8')] fails in the utf8 codec. *)
Definition ascii_failure : exn :=
  UnicodeDecodeError "'ascii' codec can't decode byte 0xff in position 0".
Definition utf8_failure : exn :=
  UnicodeDecodeError "'utf8' codec can't decode byte 0xff in position 0".
Definition byte_string_ff : pyobject :=
  PyObject (Raise ascii_failure) (Some (Raise utf8_failure)).

(** The Python 2 byte string ['\xc3\xa9'] (UTF-8 for U+00E9): not ASCII,
    but its UTF-8 decoding is a unicode object (whose own [decode] would
    first encode it to ASCII and fail). *)
Definition text_e_acute : string :=
  String "195"%char (String "169"%char EmptyString).
Definition byte_string_e_acute : pyobject :=
  PyObject
    (Raise (UnicodeDecodeError
              "'ascii' codec can't decode byte 0xc3 in position 0"))
    (Some (Ok (PyObject (Ok text_e_acute)
                        (Some (Raise (Exn "UnicodeEncodeError"
                                        ["UnicodeError"; "ValueError";
                                         "Exception"]
                                        "'ascii' codec can't encode")))))).

(** An object whose [__str__] fails with a decoding error and which has
    no [decode] attribute. *)
Definition object_without_decode : pyobject :=
  PyObject (Raise ascii_failure) None.

(** *** The rest of the module *)

(** [sys.version_info] as its comparisons with a tuple [(major, minor)]
    see it: the tuples are compared element by element, and a longer
    tuple with the same first elements is the greater, so only the major
    and the minor number count. *)
Definition version_lt (v u : N * N) : bool :=
  (fst v <? fst u)%N || ((fst v =? fst u)%N && (snd v <? snd u)%N).

(** The interpreter of that version: [IS_PYTHON_3 = sys.version_info >=
    (3, 0)]. *)
Definition interpreter_of (version_info : N * N) : Interpreter :=
  {| IS_PYTHON_3 := negb (version_lt version_info (3, 0)%N) |}.

(** [check_py_version()] *)
Definition check_py_version `{Interpreter} (version_info : N * N)
  : result unit :=
  let error_mess := "Unsupported py version. Need python 2.7 and greater." in
  if negb IS_PYTHON_3 && negb IS_PYTHON_2
  then Raise (PyVersionError error_mess)
  else if version_lt version_info (2, 7)%N
       then Raise (PyVersionError error_mess)
       else Ok tt.

(** An exception object as [get_exc_message] sees it: its [message]
    attribute when it has one, and its [args]. *)
Record pyerror : Type := {
  message : option string;
  args : list pyobject
}.

(** [u''.join(unicode_string(m) for m in args)]: the generator is
    consumed in order and the first failure ends it. *)
Fixpoint join_unicode_strings (values : list pyobject) : result string :=
  match values with
  | [] => Ok ""
  | m :: rest =>
      match unicode_string m with
      | Raise e => Raise e
      | Ok text =>
          match join_unicode_strings rest with
          | Raise e => Raise e
          | Ok texts => Ok (text +:+ texts)
          end
      end
  end.

(** [get_exc_message(error)] *)
Definition get_exc_message (error : pyerror) : result string :=
  match message error with
  | Some m => Ok m
  | None => join_unicode_strings (args error)
  end.

(** A unicode object. *)
Definition text_object (text : string) : pyobject := PyObject (Ok text) None.

End pyv.

(* --------------------------------------------------------------------- *)
(** ** seismograph/ext/mock_server/__main__.py                           *)
(* --------------------------------------------------------------------- *)

Module mock_server.

Definition DEFAULT_PORT : Z := 5000.
Definition DEFAULT_HOST : string := "127.0.0.1".

(** The attributes of the [options] object that [parse_args] returns,
    named by the [dest] of each option. *)
Record Values : Type := {
  PORT : Z;
  HOST : string;
  MOCKS_DIR : option string;
  SERVER_TYPE : string;
  NO_DEBUG : bool;
  MULTIPROCESSING : bool;
  THREADING : bool;
  GEVENT : bool
}.

Definition set_PORT (x : Z) (v : Values) : Values :=
  {| PORT := x; HOST := HOST v; MOCKS_DIR := MOCKS_DIR v;
     SERVER_TYPE := SERVER_TYPE v; NO_DEBUG := NO_DEBUG v;
     MULTIPROCESSING := MULTIPROCESSING v; THREADING := THREADING v;
     GEVENT := GEVENT v |}.
Definition set_HOST (x : string) (v : Values) : Values :=
  {| PORT := PORT v; HOST := x; MOCKS_DIR := MOCKS_DIR v;
     SERVER_TYPE := SERVER_TYPE v; NO_DEBUG := NO_DEBUG v;
     MULTIPROCESSING := MULTIPROCESSING v; THREADING := THREADING v;
     GEVENT := GEVENT v |}.
Definition set_MOCKS_DIR (x : string) (v : Values) : Values :=
  {| PORT := PORT v; HOST := HOST v; MOCKS_DIR := Some x;
     SERVER_TYPE := SERVER_TYPE v; NO_DEBUG := NO_DEBUG v;
     MULTIPROCESSING := MULTIPROCESSING v; THREADING := THREADING v;
     GEVENT := GEVENT v |}.
Definition set_SERVER_TYPE (x : string) (v : Values) : Values :=
  {| PORT := PORT v; HOST := HOST v; MOCKS_DIR := MOCKS_DIR v;
     SERVER_TYPE := x; NO_DEBUG := NO_DEBUG v;
     MULTIPROCESSING := MULTIPROCESSING v; THREADING := THREADING v;
     GEVENT := GEVENT v |}.
Definition set_NO_DEBUG (x : bool) (v : Values) : Values :=
  {| PORT := PORT v; HOST := HOST v; MOCKS_DIR := MOCKS_DIR v;
     SERVER_TYPE := SERVER_TYPE v; NO_DEBUG := x;
     MULTIPROCESSING := MULTIPROCESSING v; THREADING := THREADING v;
     GEVENT := GEVENT v |}.
Definition set_MULTIPROCESSING (x : bool) (v : Values) : Values :=
  {| PORT := PORT v; HOST := HOST v; MOCKS_DIR := MOCKS_DIR v;
     SERVER_TYPE := SERVER_TYPE v; NO_DEBUG := NO_DEBUG v;
     MULTIPROCESSING := x; THREADING := THREADING v;
     GEVENT := GEVENT v |}.
Definition set_THREADING (x : bool) (v : Values) : Values :=
  {| PORT := PORT v; HOST := HOST v; MOCKS_DIR := MOCKS_DIR v;
     SERVER_TYPE := SERVER_TYPE v; NO_DEBUG := NO_DEBUG v;
     MULTIPROCESSING := MULTIPROCESSING v; THREADING := x;
     GEVENT := GEVENT v |}.
Definition set_GEVENT (x : bool) (v : Values) : Values :=
  {| PORT := PORT v; HOST := HOST v; MOCKS_DIR := MOCKS_DIR v;
     SERVER_TYPE := SERVER_TYPE v; NO_DEBUG := NO_DEBUG v;
     MULTIPROCESSING := MULTIPROCESSING v; THREADING := THREADING v;
     GEVENT := x |}.

(** *** The option parser ([optparse])

    What an option does when it is met on the command line. *)
Inductive Action : Type :=
| store (type_ : string -> option (Values -> Values))
      (** takes one argument; [type_] converts and stores it, [None]
          being a value the option's type rejects *)
| store_const (set : Values -> Values)
      (** [store_true] / [store_false]: takes no argument *)
| help.
      (** the [-h/--help] option every [OptionParser] has *)

Record Option_ : Type := {
  short_opt : option ascii;
  long_opt : string;
  action : Action
}.

Record OptionParser : Type := {
  option_list : list Option_;
  defaults : Values
}.

(** [parser.error(msg)] prints the usage and calls [sys.exit(2)]. *)
Definition parser_error (msg : string) : exn := SystemExit ("2: " +:+ msg).

(** The value of a digit in [int(text, radix)]. *)
Definition digit_value (c : ascii) : option Z :=
  let n := Z.of_nat (nat_of_ascii c) in
  if (48 <=? n)%Z && (n <=? 57)%Z then Some (n - 48)%Z
  else if (97 <=? n)%Z && (n <=? 122)%Z then Some (n - 87)%Z
  else if (65 <=? n)%Z && (n <=? 90)%Z then Some (n - 55)%Z
  else None.

Fixpoint digits (radix : Z) (s : string) (acc : Z) : option Z :=
  match s with
  | EmptyString => Some acc
  | String c s' =>
      match digit_value c with
      | Some d => if (d <? radix)%Z
                  then digits radix s' (acc * radix + d)%Z
                  else None
      | None => None
      end
  end.

Definition nonempty_digits (radix : Z) (s : string) : option Z :=
  match s with
  | EmptyString => None
  | _ => digits radix s 0%Z
  end.

(** [int(text, radix)] for radix 2, 8, 10 or 16: an optional sign, an
    optional prefix of that radix, digits.  (Surrounding blanks and digit
    separators, which [int] also accepts, are not modelled.) *)
Definition int (text : string) (radix : Z) : option Z :=
  let '(negative, body) :=
    match text with
    | String "-" rest => (true, rest)
    | String "+" rest => (false, rest)
    | _ => (false, text)
    end in
  let body :=
    match body with
    | String "0" (String p rest) =>
        if ((radix =? 16)%Z && (Ascii.eqb p "x" || Ascii.eqb p "X"))
           || ((radix =? 2)%Z && (Ascii.eqb p "b" || Ascii.eqb p "B"))
           || ((radix =? 8)%Z && (Ascii.eqb p "o" || Ascii.eqb p "O"))
        then rest else body
    | _ => body
    end in
  match nonempty_digits radix body with
  | Some n => Some (if negative then (- n)%Z else n)
  | None => None
  end.

(** optparse's check of a [type=int] argument: the radix is chosen from
    the first characters of the text. *)
Definition _parse_int (val : string) : option Z :=
  match val with
  | String "0" (String p _) =>
      if Ascii.eqb p "x" || Ascii.eqb p "X" then int val 16
      else if Ascii.eqb p "b" || Ascii.eqb p "B" then int val 2
      else int val 8
  | String "0" EmptyString => int val 8
  | _ => int val 10
  end.

(** [get_parser()]: the eight options of the launcher, after the help
    option that optparse adds itself. *)
Definition get_parser : OptionParser := {|
  option_list := [
    {| short_opt := Some "h"%char; long_opt := "--help"; action := help |};
    {| short_opt := Some "p"%char; long_opt := "--port";
       action := store (fun val => option_map set_PORT (_parse_int val)) |};
    {| short_opt := Some "i"%char; long_opt := "--host";
       action := store (fun val => Some (set_HOST val)) |};
    {| short_opt := Some "m"%char; long_opt := "--mocks-dir";
       action := store (fun val => Some (set_MOCKS_DIR val)) |};
    {| short_opt := Some "t"%char; long_opt := "--type";
       action := store (fun val => Some (set_SERVER_TYPE val)) |};
    {| short_opt := None; long_opt := "--no-debug";
       action := store_const (set_NO_DEBUG false) |};
    {| short_opt := None; long_opt := "--multiprocessing";
       action := store_const (set_MULTIPROCESSING true) |};
    {| short_opt := None; long_opt := "--threading";
       action := store_const (set_THREADING true) |};
    {| short_opt := None; long_opt := "--gevent";
       action := store_const (set_GEVENT true) |}
  ];
  defaults := {|
    PORT := DEFAULT_PORT;
    HOST := DEFAULT_HOST;
    MOCKS_DIR := None;
    SERVER_TYPE := "json_api";
    NO_DEBUG := true;
    MULTIPROCESSING := false;
    THREADING := false;
    GEVENT := false
  |}
|}.

(** [opt, value = arg.split("=", 1)] on a long option. *)
Fixpoint split_eq (arg : string) : string * option string :=
  match arg with
  | EmptyString => (EmptyString, None)
  | String c rest =>
      if Ascii.eqb c "="%char then (EmptyString, Some rest)
      else let '(opt, value) := split_eq rest in (String c opt, value)
  end.

(** A long option is matched exactly, or else by a prefix that only one
    option has. *)
Definition _match_abbrev (parser : OptionParser) (opt : string)
  : result Option_ :=
  match List.find (fun o => String.eqb (long_opt o) opt)
                  (option_list parser) with
  | Some o => Ok o
  | None =>
      match List.filter (fun o => String.prefix opt (long_opt o))
                        (option_list parser) with
      | [o] => Ok o
      | [] => Raise (parser_error ("no such option: " +:+ opt))
      | _ => Raise (parser_error ("ambiguous option: " +:+ opt))
      end
  end.

Definition short_is (ch : ascii) (o : Option_) : bool :=
  match short_opt o with
  | Some c => Ascii.eqb c ch
  | None => false
  end.

(** A cluster of short options [-abc]; an option that takes an argument
    takes the rest of the cluster or, when nothing is left, the next
    command-line argument [next].  Returns the new values and whether
    [next] was taken. *)
Fixpoint _process_short_opts (parser : OptionParser) (cluster : string)
    (next : option string) (values : Values) : result (Values * bool) :=
  match cluster with
  | EmptyString => Ok (values, false)
  | String ch rest =>
      match List.find (short_is ch) (option_list parser) with
      | None =>
          Raise (parser_error ("no such option: -" +:+ String ch EmptyString))
      | Some o =>
          match action o with
          | help => Raise (SystemExit "0")
          | store_const set => _process_short_opts parser rest next (set values)
          | store type_ =>
              let '(value, taken) :=
                match rest with
                | EmptyString => (next, true)
                | _ => (Some rest, false)
                end in
              match value with
              | None =>
                  Raise (parser_error (long_opt o +:+
                                       " option requires 1 argument"))
              | Some val =>
                  match type_ val with
                  | Some update => Ok (update values, taken)
                  | None =>
                      Raise (parser_error (long_opt o +:+
                                           " option: invalid value"))
                  end
              end
          end
      end
  end.

(** The main loop of optparse over the remaining arguments [rargs];
    positional arguments are skipped ([main] discards them). *)
Fixpoint _process_args (parser : OptionParser) (rargs : list string)
    (values : Values) : result Values :=
  match rargs with
  | [] => Ok values
  | arg :: rargs' =>
      if String.eqb arg "--" then Ok values
      else if String.prefix "--" arg then
        let '(opt, explicit) := split_eq arg in
        match _match_abbrev parser opt with
        | Raise e => Raise e
        | Ok o =>
            match action o, explicit with
            | help, None => Raise (SystemExit "0")
            | store_const set, None => _process_args parser rargs' (set values)
            | help, Some _
            | store_const _, Some _ =>
                Raise (parser_error (long_opt o +:+
                                     " option does not take a value"))
            | store type_, Some val =>
                match type_ val with
                | Some update => _process_args parser rargs' (update values)
                | None =>
                    Raise (parser_error (long_opt o +:+
                                         " option: invalid value"))
                end
            | store type_, None =>
                match rargs' with
                | [] =>
                    Raise (parser_error (long_opt o +:+
                                         " option requires 1 argument"))
                | val :: rargs'' =>
                    match type_ val with
                    | Some update =>
                        _process_args parser rargs'' (update values)
                    | None =>
                        Raise (parser_error (long_opt o +:+
                                             " option: invalid value"))
                    end
                end
            end
        end
      else if String.prefix "-" arg && negb (String.eqb arg "-") then
        match _process_short_opts parser (String.substring 1 (String.length arg) arg)
                                  (List.head rargs') values with
        | Raise e => Raise e
        | Ok (values', taken) =>
            match taken, rargs' with
            | true, _ :: rargs'' => _process_args parser rargs'' values'
            | _, _ => _process_args parser rargs' values'
            end
        end
      else _process_args parser rargs' values
  end.

(** [options, _ = parser.parse_args()], on the arguments [argv] that
    follow the program name. *)
Definition parse_args (parser : OptionParser) (argv : list string)
  : result Values :=
  _process_args parser argv (defaults parser).

(** *** Server types

    The keyword arguments every server constructor is called with. *)
Record ServerArgs : Type := {
  mocks_dir : option string;
  host : string;
  port : Z;
  debug : bool;
  gevent : bool;
  threading : bool;
  multiprocessing : bool
}.

(** How a call of [serve_forever] ends. *)
Inductive Serve : Type :=
| serve_blocks            (** serves until the process is interrupted *)
| serve_returns
| serve_raises (e : exn).

(** A server class of the registry, by its behaviour: what constructing
    it raises (if anything), and what serving does. *)
Record ServerType : Type := {
  init : ServerArgs -> option exn;
  serve_forever : ServerArgs -> Serve
}.

(** [seismograph.ext.mock_server.SERVER_TYPES]; the package's
    [__init__.py], which fills it, is outside the modelled sources. *)
Class Registry : Type := { SERVER_TYPES : gmap string ServerType }.

(** What the launcher does that can be seen from outside, in order. *)
Inductive Event : Type :=
| patch_all_called                       (** [patch_all(thread=False)] *)
| constructed (key : string) (args : ServerArgs)
| serving (key : string).

(** How [main()] ends. *)
Inductive Outcome : Type :=
| returned
| raised (e : exn)
| blocked.

(** The arguments [main] passes to the constructor. *)
Definition server_args (options : Values) : ServerArgs := {|
  mocks_dir := MOCKS_DIR options;
  host := HOST options;
  port := PORT options;
  debug := NO_DEBUG options;
  gevent := GEVENT options;
  threading := THREADING options;
  multiprocessing := MULTIPROCESSING options
|}.

(** The [if options.GEVENT:] block of [main] (module imports are taken
    to succeed). *)
Definition gevent_block `{Interpreter} (options : Values)
  : result (list Event) :=
  if GEVENT options then
    match pyv.check_gevent_supported with
    | Raise e => Raise e
    | Ok _ => Ok [patch_all_called]
    end
  else Ok [].

(** The body of the [try:] statement of [main]. *)
Definition try_body `{Registry} (options : Values) : list Event * Outcome :=
  match SERVER_TYPES !! SERVER_TYPE options with
  | None => ([], raised (KeyError (SERVER_TYPE options)))
  | Some cls =>
      let args := server_args options in
      match init cls args with
      | Some e => ([constructed (SERVER_TYPE options) args], raised e)
      | None =>
          ([constructed (SERVER_TYPE options) args;
            serving (SERVER_TYPE options)],
           match serve_forever cls args with
           | serve_blocks => blocked
           | serve_returns => returned
           | serve_raises e => raised e
           end)
      end
  end.

(** The whole [try: ... except KeyError: raise ValueError(...)]. *)
Definition try_statement `{Registry} (options : Values)
  : list Event * Outcome :=
  match try_body options with
  | (events, raised e) =>
      if isinstance e "KeyError"
      then (events, raised (ValueError "Incorrect server type"))
      else (events, raised e)
  | other => other
  end.

(** [main()], run with the command-line arguments [argv]. *)
Definition main `{Interpreter} `{Registry} (argv : list string)
  : list Event * Outcome :=
  match parse_args get_parser argv with
  | Raise e => ([], raised e)
  | Ok options =>
      match gevent_block options with
      | Raise e => ([], raised e)
      | Ok patched =>
          let '(events, outcome) := try_statement options in
          (patched ++ events, outcome)
      end
  end.


(** Sample registries: the two keys of the package, with servers that
    start and block, and one whose [json_api] server fails while it is
    built, or while it serves, with a [KeyError] of its own. *)
Definition blocking_server : ServerType :=
  {| init := fun _ => None; serve_forever := fun _ => serve_blocks |}.
Definition broken_constructor : ServerType :=
  {| init := fun _ => Some (KeyError "'fixtures'");
     serve_forever := fun _ => serve_blocks |}.
Definition broken_handler : ServerType :=
  {| init := fun _ => None;
     serve_forever := fun _ => serve_raises (KeyError "'Content-Type'") |}.

Definition usual_registry : Registry :=
  {| SERVER_TYPES :=
       <["simple" := blocking_server]> (<["json_api" := blocking_server]> ∅) |}.
Definition faulty_registry : Registry :=
  {| SERVER_TYPES :=
       <["simple" := broken_handler]> (<["json_api" := broken_constructor]> ∅) |}.

(** *** Vocabulary of the properties *)

(** No flag that is set in [v] is cleared in [v']: debug stays off once
    it is off, a concurrency flag stays on once it is on. *)
Definition flags_kept (v v' : Values) : Prop :=
  (NO_DEBUG v = false -> NO_DEBUG v' = false) /\
  (MULTIPROCESSING v = true -> MULTIPROCESSING v' = true) /\
  (THREADING v = true -> THREADING v' = true) /\
  (GEVENT v = true -> GEVENT v' = true).

(** What an option does to the values keeps the relation [R]. *)
Definition action_keeps (R : Values -> Values -> Prop) (a : Action) : Prop :=
  match a with
  | store type_ =>
      forall val update v, type_ val = Some update -> R v (update v)
  | store_const set => forall v, R v (set v)
  | help => True
  end.

(** The argument [arg] names the long option [long]: it begins with
    two dashes and is a prefix of the name. *)
Definition abbreviates (long arg : string) : bool :=
  String.prefix "--" arg && String.prefix arg long.

(** The exceptions of the option parser: [SystemExit]. *)
Definition is_exit (e : exn) : Prop :=
  exc_class e = "SystemExit" /\ exc_bases e = [].

(** What one argument [arg] that is met by the parser does to the values:
    nothing (a positional argument, or an option value that was
    rejected), what a long option that [arg] names does, or what the
    short options of the cluster [arg] do. *)
Definition parser_step (parser : OptionParser) (arg : string)
    (v v1 : Values) : Prop :=
  v1 = v \/
  (String.prefix "--" arg = true /\
   exists o,
     In o (option_list parser) /\
     String.prefix (fst (split_eq arg)) (long_opt o) = true /\
     ((exists set, action o = store_const set /\ v1 = set v /\
                   snd (split_eq arg) = None) \/
      (exists type_ val update,
         action o = store type_ /\ type_ val = Some update /\
         v1 = update v))) \/
  (exists next taken,
     _process_short_opts parser (String.substring 1 (String.length arg) arg)
                         next v = Ok (v1, taken)).

End mock_server.


(* --------------------------------------------------------------------- *)
(** ** seismograph/suite.py                                              *)
(* --------------------------------------------------------------------- *)

Module suite.

(** *** Objects *)

(** The flags of the configuration object that the suite reads. *)
Record Config : Type := {
  GEVENT : bool;
  THREADING : bool;
  MULTIPROCESSING : bool
}.

Record MountData : Type := { MountData_config : Config }.

Record BuildRule : Type := {
  suite_name : string;
  case_name : option string;
  test_name : option string
}.

(** What a call into user code does, as far as the suite can tell: the
    time it takes (in clock ticks) and the exception it raises, if any. *)
Record Behaviour : Type := {
  takes : N;
  raises : option exn
}.

(** A layer, by the hooks that [mount_to] and [run] dispatch to. *)
Record SuiteLayer : Type := {
  layer_name : string;
  enabled : bool;
  on_setup : Behaviour;
  on_teardown : Behaviour;
  on_mount : Behaviour;
  on_run : Behaviour;
  on_error : exn -> Behaviour
}.

(** A setup or teardown callable. *)
Record Callback : Type := {
  callback_name : string;
  callback_call : Behaviour
}.

(** An extension instance, by its identity. *)
Definition Extension : Type := string.

(** A registered case class and a built test unit ([case.CaseBox]). *)
Record CaseClass : Type := {
  case_class_name : string;
  case_class_tests : list string
}.

Record CaseBox : Type := {
  box_case : string;
  box_test : string
}.

Record SuiteContext : Type := {
  __layers : list SuiteLayer;
  require : list string;
  extensions : gmap string Extension;
  build_rules : list BuildRule;
  setup_callbacks : list Callback;
  teardown_callbacks : list Callback
}.

Record Suite : Type := {
  class_name : string;               (** [self.__class__.__name__] *)
  class_bases : list string;         (** the other classes it is an instance of *)
  __case_group_class__ : option string;
  name : string;
  is_run : bool;
  is_build : bool;
  case_classes : list CaseClass;
  case_instances : list CaseBox;
  __mount_data__ : option MountData;
  context : SuiteContext
}.

(** A case-execution group, built from the case instances and the
    configuration. *)
Inductive CaseGroup : Type :=
| CustomCaseGroup (cls : string) (cases : list CaseBox) (config : Config)
| GeventCaseGroup (cases : list CaseBox) (config : Config)
| ThreadingCaseGroup (cases : list CaseBox) (config : Config)
| DefaultCaseGroup (cases : list CaseBox) (config : Config).

(** The program a suite mounts to. *)
Record Program : Type := {
  program_config : Config;
  suites : list string               (** the mounted suites, by name *)
}.

(** One error written through a result proxy:
    [add_error(suite, traceback, duration, error)]. *)
Record ErrorRecord : Type := {
  error_suite : string;
  error_traceback : string;
  error_duration : N;
  error_value : exn
}.

(** The run-wide result: [current_state.should_stop] and what was
    recorded. *)
Record Result : Type := {
  should_stop : bool;
  errors : list ErrorRecord
}.

(** Modelled from the spec: the process-wide extension registry of
    [seismograph/extensions.py], a mapping from a name to a lazily
    constructed singleton: the instances the registered names construct
    and the instances already constructed. *)
Record Extensions : Type := {
  registered : gmap string Extension;
  constructed : gmap string Extension
}.

(** Calls that leave the suite, in the order they are made. *)
Inductive Call : Type :=
| callback_called (phase : string) (callback : string)
| hook_called (layer : string) (hook : string)
| group_called (group : CaseGroup)
| stopped_on (phase : string)
| proxy_entered
| proxy_exited.

(** Everything an operation of the suite can read or change. *)
Record World : Type := {
  self : Suite;
  program : Program;
  result_ : Result;
  registry : Extensions;
  clock : N;
  calls : list Call
}.

(** What the suite module takes from its surroundings. *)
Class Environment : Type := {
  interpreter :: Interpreter;
  (** [seismograph.exceptions.ALLOW_RAISED_EXCEPTIONS], a tuple of classes *)
  ALLOW_RAISED_EXCEPTIONS : list string;
  (** the module-level registries of [suite.py], filled by other modules *)
  DEFAULT_LAYERS : list SuiteLayer;
  MATCH_SUITE_TO_LAYER : list (string * SuiteLayer);
  (** [traceback.format_exc()] while the given exception is handled *)
  format_exc : exn -> string;
  (** [loader.load_tests_from_case(cls, config=, method_name=, box_class=CaseBox, extensions=)] *)
  load_tests_from_case :
    CaseClass -> Config -> option string -> gmap string Extension ->
    result (list CaseBox);
  (** what calling a group on a result proxy does *)
  group_behaviour : CaseGroup -> Behaviour
}.

(** *** The monad of suite operations: state and exceptions *)

Definition M (A : Type) : Type := World -> result A * World.

#[global] Instance M_ret : MRet M := fun A a w => (Ok a, w).

#[global] Instance M_bind : MBind M := fun A B k m w =>
  match m w with
  | (Ok a, w') => k a w'
  | (Raise e, w') => (Raise e, w')
  end.

Definition raise {A} (e : exn) : M A := fun w => (Raise e, w).

Definition lift {A} (r : result A) : M A := fun w => (r, w).

Definition get : M World := fun w => (Ok w, w).

Definition modify (f : World -> World) : M unit := fun w => (Ok tt, f w).

(** [try: body except BaseException as e: handler(e)] *)
Definition try_except {A} (body : M A) (handler : exn -> M A) : M A :=
  fun w =>
    match body w with
    | (Ok a, w') => (Ok a, w')
    | (Raise e, w') => handler e w'
    end.

(** [try: body finally: final] *)
Definition try_finally {A} (body : M A) (final : M unit) : M A :=
  fun w =>
    match body w with
    | (r, w') =>
        match final w' with
        | (Ok _, w'') => (r, w'')
        | (Raise e, w'') => (Raise e, w'')
        end
    end.

(** [for x in xs: body(x)] *)
Fixpoint for_each {A} (xs : list A) (body : A -> M unit) : M unit :=
  match xs with
  | [] => mret tt
  | x :: xs' => body x;; for_each xs' body
  end.

(** *** Assignments to attributes *)

Definition set_self (s : Suite) (w : World) : World :=
  {| self := s; program := program w; result_ := result_ w;
     registry := registry w; clock := clock w; calls := calls w |}.
Definition set_program (p : Program) (w : World) : World :=
  {| self := self w; program := p; result_ := result_ w;
     registry := registry w; clock := clock w; calls := calls w |}.
Definition set_result (r : Result) (w : World) : World :=
  {| self := self w; program := program w; result_ := r;
     registry := registry w; clock := clock w; calls := calls w |}.
Definition set_registry (x : Extensions) (w : World) : World :=
  {| self := self w; program := program w; result_ := result_ w;
     registry := x; clock := clock w; calls := calls w |}.
Definition set_clock (t : N) (w : World) : World :=
  {| self := self w; program := program w; result_ := result_ w;
     registry := registry w; clock := t; calls := calls w |}.
Definition set_calls (l : list Call) (w : World) : World :=
  {| self := self w; program := program w; result_ := result_ w;
     registry := registry w; clock := clock w; calls := l |}.

Definition set_is_run (b : bool) (s : Suite) : Suite :=
  {| class_name := class_name s; class_bases := class_bases s;
     __case_group_class__ := __case_group_class__ s; name := name s;
     is_run := b; is_build := is_build s;
     case_classes := case_classes s; case_instances := case_instances s;
     __mount_data__ := __mount_data__ s; context := context s |}.
Definition set_is_build (b : bool) (s : Suite) : Suite :=
  {| class_name := class_name s; class_bases := class_bases s;
     __case_group_class__ := __case_group_class__ s; name := name s;
     is_run := is_run s; is_build := b;
     case_classes := case_classes s; case_instances := case_instances s;
     __mount_data__ := __mount_data__ s; context := context s |}.
Definition set_case_instances (l : list CaseBox) (s : Suite) : Suite :=
  {| class_name := class_name s; class_bases := class_bases s;
     __case_group_class__ := __case_group_class__ s; name := name s;
     is_run := is_run s; is_build := is_build s;
     case_classes := case_classes s; case_instances := l;
     __mount_data__ := __mount_data__ s; context := context s |}.
Definition set_mount_data (d : option MountData) (s : Suite) : Suite :=
  {| class_name := class_name s; class_bases := class_bases s;
     __case_group_class__ := __case_group_class__ s; name := name s;
     is_run := is_run s; is_build := is_build s;
     case_classes := case_classes s; case_instances := case_instances s;
     __mount_data__ := d; context := context s |}.
Definition set_context (c : SuiteContext) (s : Suite) : Suite :=
  {| class_name := class_name s; class_bases := class_bases s;
     __case_group_class__ := __case_group_class__ s; name := name s;
     is_run := is_run s; is_build := is_build s;
     case_classes := case_classes s; case_instances := case_instances s;
     __mount_data__ := __mount_data__ s; context := c |}.

Definition set_extensions (m : gmap string Extension) (c : SuiteContext)
  : SuiteContext :=
  {| __layers := __layers c; require := require c; extensions := m;
     build_rules := build_rules c; setup_callbacks := setup_callbacks c;
     teardown_callbacks := teardown_callbacks c |}.
Definition set_build_rules (l : list BuildRule) (c : SuiteContext)
  : SuiteContext :=
  {| __layers := __layers c; require := require c;
     extensions := extensions c; build_rules := l;
     setup_callbacks := setup_callbacks c;
     teardown_callbacks := teardown_callbacks c |}.
Definition set_setup_callbacks (l : list Callback) (c : SuiteContext)
  : SuiteContext :=
  {| __layers := __layers c; require := require c;
     extensions := extensions c; build_rules := build_rules c;
     setup_callbacks := l; teardown_callbacks := teardown_callbacks c |}.
Definition set_teardown_callbacks (l : list Callback) (c : SuiteContext)
  : SuiteContext :=
  {| __layers := __layers c; require := require c;
     extensions := extensions c; build_rules := build_rules c;
     setup_callbacks := setup_callbacks c; teardown_callbacks := l |}.

Definition get_self : M Suite := fun w => (Ok (self w), w).
Definition modify_self (f : Suite -> Suite) : M unit :=
  modify (fun w => set_self (f (self w)) w).
Definition modify_context (f : SuiteContext -> SuiteContext) : M unit :=
  modify_self (fun s => set_context (f (context s)) s).

(** *** Collaborators *)

(** A call into user code: it is logged, the clock advances by the time
    it takes, and it returns or raises. *)
Definition call (what : Call) (b : Behaviour) : M unit :=
  fun w =>
    let w' := set_clock (clock w + takes b)%N
                        (set_calls (calls w ++ [what]) w) in
    match raises b with
    | None => (Ok tt, w')
    | Some e => (Raise e, w')
    end.

(** Modelled from the spec: [runnable.stopped_on(suite, phase)], which is
    in [seismograph/runnable.py]: the failure is tagged with a marker that
    names the lifecycle phase it occurred in. *)
Definition mark_stopped_on (phase : string) : M unit :=
  modify (fun w => set_calls (calls w ++ [stopped_on phase]) w).

(** Modelled from the spec: [call_to_chain] of
    [seismograph/utils/common.py]: invoke each target in order (as a plain
    callable, or its named operation); the first failure propagates at
    once and the rest of the sequence is not invoked. *)
Definition call_to_chain {T} (targets : list T) (invoke : T -> M unit)
  : M unit :=
  for_each targets invoke.

(** Modelled from the spec: [measure_time] of
    [seismograph/utils/common.py]: starting a measurement returns a probe,
    and invoking the probe returns the time elapsed since the start.  The
    probe is represented by the start time. *)
Definition measure_time : M N := fun w => (Ok (clock w), w).
Definition timer (start : N) : M N := fun w => (Ok (clock w - start)%N, w).

(** Modelled from the spec: the kinds NotMounted and NotBuilt, raised by
    the guards of [seismograph/runnable.py]. *)
Definition NotMounted (suite_name : string) : exn :=
  Exn "NotMounted" [] suite_name.
Definition NotBuilt (suite_name : string) : exn :=
  Exn "NotBuilt" [] suite_name.

(** Modelled from the spec: the kind NotFound, raised by the extension
    registry and by the loader for a name that is not registered. *)
Definition NotFound (what : string) : exn := Exn "NotFound" [] what.

(** The kinds AlreadyMounted and AlreadyBuilt of the specification are
    the two [RuntimeError]s of [mount_to] and [build]. *)
Definition AlreadyMounted (suite_name : string) : exn :=
  RuntimeError ("Suite " +:+ dquote +:+ suite_name +:+ dquote +:+
                " already mount").
Definition AlreadyBuilt (cls : string) : exn :=
  RuntimeError ("Suite " +:+ dquote +:+ cls +:+ dquote +:+
                " is already built").

(** [Suite.__is_mount__]: [isinstance(self.__mount_data__, MountData)]. *)
Definition __is_mount__ (s : Suite) : bool :=
  match __mount_data__ s with Some _ => true | None => false end.

(** [Suite.__is_build__] *)
Definition __is_build__ (s : Suite) : bool := is_build s.

(** [Suite.__is_run__] *)
Definition __is_run__ (s : Suite) : bool := is_run s.

(** Modelled from the spec: [runnable.is_mount], the helper that tells
    whether a runnable object has completed its mount phase. *)
Definition is_mount (s : Suite) : bool := __is_mount__ s.

(** Modelled from the spec: the decorator [runnable.mount_method]: the
    operation fails with NotMounted before the object is mounted. *)
Definition mount_method {A} (operation : M A) : M A :=
  s ← get_self;
  if __is_mount__ s then operation else raise (NotMounted (name s)).

(** Modelled from the spec: the decorator [runnable.build_method]: the
    operation fails with NotBuilt before the object is built. *)
Definition build_method {A} (operation : M A) : M A :=
  s ← get_self;
  if __is_build__ s then operation else raise (NotBuilt (name s)).

(** Modelled from the spec: [extensions.get(name)] of
    [seismograph/extensions.py]: the instance already constructed for the
    name, else the one constructed now and cached; NotFound for a name
    that is not registered. *)
Definition extensions_get (ext_name : string) : M Extension :=
  fun w =>
    match constructed (registry w) !! ext_name with
    | Some instance => (Ok instance, w)
    | None =>
        match registered (registry w) !! ext_name with
        | Some instance =>
            (Ok instance,
             set_registry
               {| registered := registered (registry w);
                  constructed :=
                    <[ext_name := instance]> (constructed (registry w)) |}
               w)
        | None => (Raise (NotFound ext_name), w)
        end
    end.

(** Modelled from the spec: [loader.load_case_from_suite(case_name,
    suite)] of [seismograph/loader.py]: the registered case class of that
    name; NotFound when no case of that name is registered. *)
Definition load_case_from_suite (case : string) (s : Suite)
  : result CaseClass :=
  match List.find (fun cls => String.eqb (case_class_name cls) case)
                  (case_classes s) with
  | Some cls => Ok cls
  | None => Raise (NotFound case)
  end.

(** Modelled from the spec: [result.proxy(suite)] of
    [seismograph/result.py], the scoped acquisition of a reporting handle:
    the handle is acquired, the block runs, the handle is released on
    every exit; a failure of the block propagates. *)
Definition proxy {A} (block : M A) : M A :=
  modify (fun w => set_calls (calls w ++ [proxy_entered]) w);;
  try_finally block
    (modify (fun w => set_calls (calls w ++ [proxy_exited]) w)).

(** Modelled from the spec: [result_proxy.add_error(suite, traceback,
    duration, error)], the one write operation of the handle: it records
    one error. *)
Definition add_error (suite trace : string) (duration : N) (error : exn)
  : M unit :=
  modify (fun w =>
    set_result
      {| should_stop := should_stop (result_ w);
         errors := errors (result_ w) ++
                   [{| error_suite := suite; error_traceback := trace;
                       error_duration := duration; error_value := error |}]
      |} w).

(** [not l] for a list *)
Definition is_empty {A} (l : list A) : bool :=
  match l with [] => true | _ :: _ => false end.

(** *** BuildRule *)

(** ['{}'.format(x)] for a string or [None] *)
Definition format_ (x : option string) : string := default "None" x.

(** [BuildRule.__str__] *)
Definition BuildRule_str (rule : BuildRule) : string :=
  if truthy (Some (suite_name rule)) && truthy (case_name rule)
     && truthy (test_name rule)
  then (* '{}:{}.{}'.format(suite_name, case_name, case_name) *)
    suite_name rule +:+ ":" +:+ format_ (case_name rule) +:+ "." +:+
    format_ (case_name rule)
  else if truthy (Some (suite_name rule)) && truthy (case_name rule)
  then (* '{}:{}'.format(suite_name, case_name) *)
    suite_name rule +:+ ":" +:+ format_ (case_name rule)
  else suite_name rule.

(** [BuildRule.is_of] *)
Definition is_of (rule : BuildRule) (s : Suite) : bool :=
  String.eqb (suite_name rule) (name s).

(** *** Layers of a suite *)

(** [isinstance(suite, cls)] *)
Definition suite_isinstance (s : Suite) (cls : string) : bool :=
  String.eqb cls (class_name s) || existsb (String.eqb cls) (class_bases s).

(** [SuiteContext.layers]: the enabled default layers, then the enabled
    layers of the context. *)
Definition layers `{Environment} (c : SuiteContext) : list SuiteLayer :=
  List.filter enabled DEFAULT_LAYERS ++ List.filter enabled (__layers c).

(** [with_match_layers(context, suite)] *)
Definition with_match_layers `{Environment} (c : SuiteContext) (s : Suite)
  : list SuiteLayer :=
  layers c ++
  List.map snd
    (List.filter (fun '(cls, layer) => suite_isinstance s cls && enabled layer)
                 MATCH_SUITE_TO_LAYER).

(** [call_to_chain(with_match_layers(self, suite), hook, ...)] *)
Definition broadcast `{Environment} (hook : string)
    (behaviour : SuiteLayer -> Behaviour) : M unit :=
  s ← get_self;
  call_to_chain (with_match_layers (context s) s)
    (fun layer => call (hook_called (layer_name layer) hook) (behaviour layer)).

(** [call_to_chain(callbacks, None)] *)
Definition call_callbacks (phase : string) (callbacks : list Callback)
  : M unit :=
  call_to_chain callbacks
    (fun f => call (callback_called phase (callback_name f)) (callback_call f)).

(** *** SuiteContext *)

(** [SuiteContext.install_extensions] *)
Definition install_extensions : M unit :=
  s ← get_self;
  for_each (require (context s)) (fun ext_name =>
    s ← get_self;
    match extensions (context s) !! ext_name with
    | Some _ => mret tt
    | None =>
        instance ← extensions_get ext_name;
        modify_context (fun c =>
          set_extensions (<[ext_name := instance]> (extensions c)) c)
    end).

(** [SuiteContext.start_context] *)
Definition start_context `{Environment} : M unit :=
  try_except
    (s ← get_self;
     call_callbacks "setup" (setup_callbacks (context s));;
     broadcast "on_setup" on_setup)
    (fun e => mark_stopped_on "start_context";; raise e).

(** [SuiteContext.stop_context] *)
Definition stop_context `{Environment} : M unit :=
  try_except
    (s ← get_self;
     call_callbacks "teardown" (teardown_callbacks (context s));;
     broadcast "on_teardown" on_teardown)
    (fun e => mark_stopped_on "stop_context";; raise e).

(** [SuiteContext.on_mount] *)
Definition context_on_mount `{Environment} : M unit :=
  broadcast "on_mount" on_mount.

(** [SuiteContext.on_run] *)
Definition context_on_run `{Environment} : M unit :=
  try_except (broadcast "on_run" on_run)
    (fun e => mark_stopped_on "on_run";; raise e).

(** [SuiteContext.on_error] *)
Definition context_on_error `{Environment} (error : exn) : M unit :=
  try_except (broadcast "on_error" (fun layer => on_error layer error))
    (fun e => mark_stopped_on "on_error";; raise e).

(** Modelled from the spec: the scoped execution context
    [with self.__context(self): block], which is
    [ContextOfRunnableObject.__call__] in [seismograph/runnable.py]:
    entering runs the setup callbacks and then the "on setup" broadcast
    ([start_context]); leaving the block, on every exit path, runs the
    teardown callbacks and then the "on teardown" broadcast
    ([stop_context]).  A block whose entry failed was not entered. *)
Definition scoped `{Environment} (block : M unit) : M unit :=
  start_context;;
  try_finally block stop_context.

(** *** Suite *)

(** [Suite.config], a mount-guarded property *)
Definition config : M Config :=
  mount_method
    (s ← get_self;
     match __mount_data__ s with
     | Some data => mret (MountData_config data)
     | None =>
         raise (AttributeError
                  "'NoneType' object has no attribute 'config'")
     end).

(** [Suite.__build__] *)
Definition __build__ `{Environment} (case test : option string) : M unit :=
  if truthy case then
    s ← get_self;
    cls ← lift (load_case_from_suite (default "" case) s);
    cfg ← config;
    s ← get_self;
    boxes ← lift (load_tests_from_case cls cfg test (extensions (context s)));
    modify_self (fun s => set_case_instances (case_instances s ++ boxes) s)
  else
    s ← get_self;
    for_each (case_classes s) (fun cls =>
      cfg ← config;
      s ← get_self;
      boxes ← lift (load_tests_from_case cls cfg None
                                         (extensions (context s)));
      modify_self (fun s => set_case_instances (case_instances s ++ boxes) s)).

(** [Suite._make_group] (the group classes only keep their arguments) *)
Definition _make_group `{Environment} : M CaseGroup :=
  s ← get_self;
  match __case_group_class__ s with
  | Some cls =>
      cfg ← config;
      mret (CustomCaseGroup cls (case_instances s) cfg)
  | None =>
      cfg ← config;
      if GEVENT cfg then
        lift pyv.check_gevent_supported;;
        cfg ← config;
        mret (GeventCaseGroup (case_instances s) cfg)
      else
        cfg ← config;
        if THREADING cfg then
          cfg ← config;
          mret (ThreadingCaseGroup (case_instances s) cfg)
        else
          cfg ← config;
          if MULTIPROCESSING cfg then
            cfg ← config;
            mret (ThreadingCaseGroup (case_instances s) cfg)
          else
            cfg ← config;
            mret (DefaultCaseGroup (case_instances s) cfg)
  end.

(** [Suite.add_setup] and [Suite.add_teardown] *)
Definition add_setup (f : Callback) : M Callback :=
  modify_context (fun c => set_setup_callbacks (setup_callbacks c ++ [f]) c);;
  mret f.

Definition add_teardown (f : Callback) : M Callback :=
  modify_context (fun c =>
    set_teardown_callbacks (teardown_callbacks c ++ [f]) c);;
  mret f.

(** [Suite.assign_build_rule] *)
Definition assign_build_rule (rule : BuildRule) : M unit :=
  s ← get_self;
  if is_of rule s then
    if truthy (case_name rule) then
      modify_context (fun c => set_build_rules (build_rules c ++ [rule]) c)
    else mret tt
  else
    raise (AssertionError ("Build rule is not of this suite " +:+
                           BuildRule_str rule)).

(** [Suite.ext], a build-guarded method; the value is that of
    [dict.get], [None] for a name the mapping does not have. *)
Definition ext (ext_name : string) : M (option Extension) :=
  build_method
    (s ← get_self;
     if bool_decide (ext_name ∈ require (context s))
     then mret (extensions (context s) !! ext_name)
     else raise (ExtensionNotRequired ext_name)).

(** [Suite.mount_to], on the program of the world *)
Definition mount_to `{Environment} : M unit :=
  s ← get_self;
  if is_mount s then raise (AlreadyMounted (name s))
  else
    modify (fun w =>
      set_program {| program_config := program_config (program w);
                     suites := suites (program w) ++ [name s] |} w);;
    w ← get;
    modify_self
      (set_mount_data
         (Some {| MountData_config := program_config (program w) |}));;
    context_on_mount.

(** [Suite.build], a mount-guarded method *)
Definition build `{Environment} (case test : option string)
    (shuffle : option (list CaseBox -> result (list CaseBox))) : M unit :=
  mount_method
    (s ← get_self;
     if is_build s then raise (AlreadyBuilt (class_name s))
     else
       install_extensions;;
       s ← get_self;
       (if negb (is_empty (build_rules (context s))) && negb (truthy case)
        then for_each (build_rules (context s)) (fun rule =>
               __build__ (case_name rule) (test_name rule))
        else __build__ case test);;
       (match shuffle with
        | Some f =>
            s ← get_self;
            shuffled ← lift (f (case_instances s));
            modify_self (set_case_instances shuffled)
        | None => mret tt
        end);;
       modify_self (set_is_build true)).

(** The handler of [run]:
<<
    except ALLOW_RAISED_EXCEPTIONS:
        raise
    except BaseException as error:
        result_proxy.add_error(
            self, traceback.format_exc(), timer(), error,
        )
        self.__context.on_error(error, self, result_proxy)
>> *)
Definition run_handler `{Environment} (start : N) (error : exn) : M unit :=
  if isinstance_any error ALLOW_RAISED_EXCEPTIONS then raise error
  else
    s ← get_self;
    let trace := format_exc error in
    duration ← timer start;
    add_error (name s) trace duration error;;
    context_on_error error.

(** The body of the [try:] statement of [run]:
<<
    self.__context.on_run(self)

    with self.__context(self):
        group(result_proxy)
>> *)
Definition run_body `{Environment} (group : CaseGroup) : M unit :=
  context_on_run;;
  scoped (call (group_called group) (group_behaviour group)).

(** [Suite.run], a build-guarded method, on the result of the world *)
Definition run `{Environment} : M unit :=
  build_method
    (modify_self (set_is_run true);;
     w ← get;
     if should_stop (result_ w) || is_empty (case_instances (self w))
     then mret tt
     else
       group ← _make_group;
       start ← measure_time;
       proxy (try_except (run_body group) (run_handler start))).

(** *** Vocabulary of the properties *)

(** The operation [m] relates every world it starts in to the world it
    leaves, whether it returns or raises. *)
Definition keeps {A} (R : World -> World -> Prop) (m : M A) : Prop :=
  forall w r w', m w = (r, w') -> R w w'.

(** Only the clock and the log of calls differ. *)
Definition only_calls (w w' : World) : Prop :=
  self w' = self w /\ program w' = program w /\
  result_ w' = result_ w /\ registry w' = registry w.

(** The suite is the same object in the same state. *)
Definition same_self (w w' : World) : Prop := self w' = self w.

(** Of the suite only the case instances may differ (and of the rest of
    the world anything). *)
Definition same_but_cases (w w' : World) : Prop :=
  set_case_instances [] (self w') = set_case_instances [] (self w).

(** Of the suite only the installed extensions may differ, and they only
    grow. *)
Definition extensions_grow (w w' : World) : Prop :=
  set_context (set_extensions ∅ (context (self w'))) (self w') =
  set_context (set_extensions ∅ (context (self w))) (self w) /\
  forall n, is_Some (extensions (context (self w)) !! n) ->
            is_Some (extensions (context (self w')) !! n).

(** The world in which [run] has set the "is run" flag. *)
Definition marked_run (w : World) : World :=
  set_self (set_is_run true (self w)) w.



(** *** Sample suites *)

Definition returns (t : N) : Behaviour := {| takes := t; raises := None |}.
Definition fails (t : N) (e : exn) : Behaviour :=
  {| takes := t; raises := Some e |}.

Definition test_failure : exn := ValueError "unexpected response".
Definition reporter_failure : exn := RuntimeError "reporter is down".

(** A layer that only watches, and one whose [on_error] hook fails. *)
Definition watcher : SuiteLayer :=
  {| layer_name := "watcher"; enabled := true;
     on_setup := returns 1; on_teardown := returns 1;
     on_mount := returns 1; on_run := returns 1;
     on_error := fun _ => returns 1 |}.
Definition reporter : SuiteLayer :=
  {| layer_name := "reporter"; enabled := true;
     on_setup := returns 1; on_teardown := returns 1;
     on_mount := returns 1; on_run := returns 1;
     on_error := fun _ => fails 1 reporter_failure |}.

(** A loader that makes one unit per test method of the class, or the one
    named. *)
Definition sample_loader (cls : CaseClass) (cfg : Config)
    (method : option string) (exts : gmap string Extension)
  : result (list CaseBox) :=
  Ok (List.map
        (fun t => {| box_case := case_class_name cls; box_test := t |})
        (List.filter
           (fun t => match method with
                     | Some m => String.eqb m t
                     | None => true
                     end)
           (case_class_tests cls))).

(** An environment on the given interpreter, with the given default
    layers and the given behaviour of every group. *)
Definition sample_environment (py : Interpreter)
    (default_layers : list SuiteLayer) (group : Behaviour) : Environment :=
  {| interpreter := py;
     ALLOW_RAISED_EXCEPTIONS := ["KeyboardInterrupt"];
     DEFAULT_LAYERS := default_layers;
     MATCH_SUITE_TO_LAYER := [];
     format_exc := fun e =>
       "Traceback (most recent call last): " +:+ exc_class e +:+ ": " +:+
       exc_msg e;
     load_tests_from_case := sample_loader;
     group_behaviour := fun _ => group |}.

Definition sample_config (gevent_ threading_ multiprocessing_ : bool)
  : Config :=
  {| GEVENT := gevent_; THREADING := threading_;
     MULTIPROCESSING := multiprocessing_ |}.

(** A suite as its constructor leaves it: [Suite("smoke",
    require=["db"])] of class [Suite], with one registered case class. *)
Definition new_suite (case_group_class : option string)
    (cases : list CaseClass) : Suite :=
  {| class_name := "Suite"; class_bases := ["RunnableObject"];
     __case_group_class__ := case_group_class;
     name := "smoke";
     is_run := false; is_build := false;
     case_classes := cases;
     case_instances := [];
     __mount_data__ := None;
     context :=
       {| __layers := []; require := ["db"]; extensions := ∅;
          build_rules := [];
          setup_callbacks :=
            [{| callback_name := "setup"; callback_call := returns 0 |}];
          teardown_callbacks :=
            [{| callback_name := "teardown"; callback_call := returns 0 |}]
       |} |}.

Definition login_case : CaseClass :=
  {| case_class_name := "LoginCase";
     case_class_tests := ["test_ok"; "test_denied"] |}.

(** A world with that suite, a program of the given configuration, a
    result that does not ask to stop, and a registry that knows the
    extensions "db" and "cache". *)
Definition new_world (s : Suite) (cfg : Config) : World :=
  {| self := s;
     program := {| program_config := cfg; suites := [] |};
     result_ := {| should_stop := false; errors := [] |};
     registry := {| registered := <["db" := "db#1"]> (<["cache" := "cache#1"]> ∅);
                    constructed := ∅ |};
     clock := 0;
     calls := [] |}.

(** The world after [m] has run in [w]. *)
Definition after {A} (m : M A) (w : World) : World := snd (m w).

(** Three environments on Python 3 with the watching layer: the group
    runs all its cases; it raises an error of a test; it is interrupted
    from the keyboard.  And one in which the reporting layer, whose
    [on_error] hook fails, is installed as well. *)
Definition calm : Environment :=
  sample_environment python3 [watcher] (returns 5).
Definition failing_with_reporter : Environment :=
  sample_environment python3 [watcher; reporter] (fails 5 test_failure).

(** The sample suite, new, then mounted, then built, for a
    configuration with the given flags and the given class-level group. *)
Definition fresh_world (case_group_class : option string) (cfg : Config)
  : World :=
  new_world (new_suite case_group_class [login_case]) cfg.
Definition mounted_world (case_group_class : option string) (cfg : Config)
  : World :=
  after (mount_to (H := calm)) (fresh_world case_group_class cfg).
Definition built_world (case_group_class : option string) (cfg : Config)
  : World :=
  after (build (H := calm) None None None)
        (mounted_world case_group_class cfg).

(** The sample suite without any case, mounted and built. *)
Definition empty_built_world : World :=
  after (build (H := calm) None None None)
        (after (mount_to (H := calm))
               (new_world (new_suite None [])
                          (sample_config false false false))).

(** The built sample suite when the result asks the run to stop. *)
Definition stopping_world : World :=
  set_result {| should_stop := true; errors := [] |}
             (built_world None (sample_config false false false)).

(** *** The rest of the classes *)

(** [Suite.__nonzero__], [Suite.__bool__] and [Suite.__iter__] *)
Definition __nonzero__ (s : Suite) : bool :=
  negb (is_empty (case_instances s)).
Definition __bool__ (s : Suite) : bool := __nonzero__ s.
Definition __iter__ (s : Suite) : list CaseBox := case_instances s.

(** [Suite.cases] *)
Definition cases (s : Suite) : list CaseClass := case_classes s.

Definition set___layers (l : list SuiteLayer) (c : SuiteContext)
  : SuiteContext :=
  {| __layers := l; require := require c; extensions := extensions c;
     build_rules := build_rules c; setup_callbacks := setup_callbacks c;
     teardown_callbacks := teardown_callbacks c |}.

(** [SuiteContext.add_layers] *)
Definition add_layers (layers_ : list SuiteLayer) : M unit :=
  modify_context (fun c => set___layers (__layers c ++ layers_) c).

(** What [get_map] takes from the loader and from the classes: the two
    names [loader.TEST_NAME_PREFIX] and [loader.DEFAULT_TEST_NAME], and
    [dir(case_class)], the names of the attributes of a class. *)
Class Loader : Type := {
  TEST_NAME_PREFIX : string;
  DEFAULT_TEST_NAME : string;
  dir : CaseClass -> list string
}.

(** [getattr(case_class, atr)], by its identity. *)
Definition getattr (case_class : CaseClass) (atr : string)
  : string * string :=
  (case_class_name case_class, atr).

(** [dict(pairs)]: a later pair replaces an earlier one of the same key. *)
Definition dict {V} (pairs : list (string * V)) : gmap string V :=
  foldl (fun mp kv => <[fst kv := snd kv]> mp) ∅ pairs.

(** The value [get_map] has for a class: [{'cls': ..., 'tests': ...}]. *)
Record MapEntry : Type := {
  entry_cls : CaseClass;
  entry_tests : gmap string (string * string)
}.

Definition is_test_name `{Loader} (atr : string) : bool :=
  String.prefix TEST_NAME_PREFIX atr || String.eqb atr DEFAULT_TEST_NAME.

Definition map_entry `{Loader} (case_class : CaseClass) : MapEntry :=
  {| entry_cls := case_class;
     entry_tests :=
       dict (List.map (fun atr => (atr, getattr case_class atr))
                      (List.filter is_test_name (dir case_class))) |}.

(** [Suite.get_map] *)
Definition get_map `{Loader} (s : Suite) : gmap string MapEntry :=
  foldl (fun mp case_class =>
           <[case_class_name case_class := map_entry case_class]> mp)
        ∅ (case_classes s).

(** *** More vocabulary of the properties *)

(** The case instances of [w] are still there in [w'], first and in the
    same order. *)
Definition cases_kept (w w' : World) : Prop :=
  case_instances (self w) `prefix_of` case_instances (self w').

(** No installed extension is replaced, only required names are
    installed, and the required names stay. *)
Definition installed_kept (w w' : World) : Prop :=
  (forall n v, extensions (context (self w)) !! n = Some v ->
               extensions (context (self w')) !! n = Some v) /\
  (forall n, is_Some (extensions (context (self w')) !! n) ->
             is_Some (extensions (context (self w)) !! n) \/
             n ∈ require (context (self w))) /\
  require (context (self w')) = require (context (self w)).

(** A build rule as [assign_build_rule] retains them: of that suite, and
    with a case name. *)
Definition retained (s : Suite) (rule : BuildRule) : Prop :=
  is_of rule s = true /\ truthy (case_name rule) = true.

(** The calls that a chain of setup callbacks, and a broadcast, log. *)
Definition callback_calls (phase : string) (callbacks : list Callback)
  : list Call :=
  List.map (fun f => callback_called phase (callback_name f)) callbacks.
Definition hook_calls (hook : string) (layers_ : list SuiteLayer)
  : list Call :=
  List.map (fun layer => hook_called (layer_name layer) hook) layers_.

(** *** More samples *)

Definition sample_loader_names : Loader :=
  {| TEST_NAME_PREFIX := "test_";
     DEFAULT_TEST_NAME := "test";
     dir := fun cls => "__init__" :: "setup" :: case_class_tests cls |}.

(** A setup callback that fails, and one that returns. *)
Definition broken_fixture : Callback :=
  {| callback_name := "start_database";
     callback_call := fails 2 (RuntimeError "port in use") |}.
Definition fixture : Callback :=
  {| callback_name := "load_users"; callback_call := returns 2 |}.

(** A layer that is switched off. *)
Definition sleeper : SuiteLayer :=
  {| layer_name := "sleeper"; enabled := false;
     on_setup := returns 1; on_teardown := returns 1;
     on_mount := returns 1; on_run := returns 1;
     on_error := fun _ => returns 1 |}.

End suite.

(* ===================================================================== *)
(** * Part II.  Properties                                               *)
(* ===================================================================== *)

(** ** pyv: text coercion *)

Section TextCoercion.
Import pyv.

Lemma isinstance_own_class cls bases msg :
  isinstance (Exn cls bases msg) cls = true.
Proof.
  unfold isinstance; simpl.
  rewrite String.eqb_refl. now rewrite orb_true_r.
Qed.

(** C8, as the code has it.  [unicode_string] returns the text that
    coercing its argument gives.  When the coercion raises something that
    is not a decoding failure, that propagates.  When it raises a decoding
    failure, the value is decoded as UTF-8 bytes and the result coerced:
    a success is returned; a retry that fails with [AttributeError] (the
    value has no [decode]) re-raises the original decoding failure; a
    retry that fails with anything else propagates the failure of the
    retry. *)
Theorem unicode_string_cases (value : pyobject) :
  (forall text, unicode value = Ok text -> unicode_string value = Ok text) /\
  (forall e, unicode value = Raise e ->
             isinstance e "UnicodeDecodeError" = false ->
             unicode_string value = Raise e) /\
  (forall e text, unicode value = Raise e ->
                  isinstance e "UnicodeDecodeError" = true ->
                  retry value = Ok text ->
                  unicode_string value = Ok text) /\
  (forall e e', unicode value = Raise e ->
                isinstance e "UnicodeDecodeError" = true ->
                retry value = Raise e' ->
                isinstance e' "AttributeError" = true ->
                unicode_string value = Raise e) /\
  (forall e e', unicode value = Raise e ->
                isinstance e "UnicodeDecodeError" = true ->
                retry value = Raise e' ->
                isinstance e' "AttributeError" = false ->
                unicode_string value = Raise e').
Proof.
  unfold unicode_string.
  repeat split; intros.
  - now rewrite H.
  - now rewrite H, H0.
  - now rewrite H, H0, H1.
  - now rewrite H, H0, H1, H2.
  - now rewrite H, H0, H1, H2.
Qed.

(** The cases of [unicode_string_cases] on sample values: a byte string
    that is valid UTF-8, an object without [decode], and a byte string
    that is not valid UTF-8. *)
Lemma unicode_string_cases_witness :
  unicode_string byte_string_e_acute = Ok text_e_acute /\
  unicode_string object_without_decode = Raise ascii_failure /\
  unicode_string byte_string_ff = Raise utf8_failure.
Proof.
  split; [|split].
  - destruct (unicode_string_cases byte_string_e_acute) as (_ & _ & H & _).
    eapply H; reflexivity.
  - destruct (unicode_string_cases object_without_decode)
      as (_ & _ & _ & H & _).
    eapply H; reflexivity.
  - destruct (unicode_string_cases byte_string_ff) as (_ & _ & _ & _ & H).
    eapply H; reflexivity.
Defined.

(** C8, as stated, fails on the Python 2 byte string ['\xff']: coercing
    it raises a decoding failure (ascii codec), the retry raises another
    decoding failure (utf8 codec), and [unicode_string] raises the
    failure of the retry, not the original one. *)
Lemma unicode_string_raises_retry_failure :
  unicode byte_string_ff = Raise ascii_failure /\
  isinstance ascii_failure "UnicodeDecodeError" = true /\
  retry byte_string_ff = Raise utf8_failure /\
  unicode_string byte_string_ff = Raise utf8_failure /\
  unicode_string byte_string_ff <> Raise ascii_failure.
Proof.
  repeat split; try reflexivity.
  vm_compute. intros H. discriminate H.
Qed.

End TextCoercion.

(** ** mock_server: the launcher *)

Section Launcher.
Import mock_server.
Context `{Interpreter} `{Registry}.




(** C10.  When the run reaches the [try] statement and the registered
    server class raises a [KeyError] (or an instance of a subclass) while
    it is constructed, or while it serves, [main] fails with the
    [ValueError] "Incorrect server type", as it does for an unregistered
    key. *)
Theorem main_converts_every_KeyError
    (argv : list string) (options : Values) (patched : list Event)
    (cls : ServerType) (e : exn) :
  parse_args get_parser argv = Ok options ->
  gevent_block options = Ok patched ->
  SERVER_TYPES !! SERVER_TYPE options = Some cls ->
  isinstance e "KeyError" = true ->
  (init cls (server_args options) = Some e ->
   main argv =
     (patched ++ [constructed (SERVER_TYPE options) (server_args options)],
      raised (ValueError "Incorrect server type"))) /\
  (init cls (server_args options) = None ->
   serve_forever cls (server_args options) = serve_raises e ->
   main argv =
     (patched ++ [constructed (SERVER_TYPE options) (server_args options);
                  serving (SERVER_TYPE options)],
      raised (ValueError "Incorrect server type"))).
Proof.
  intros Hparse Hblock Hcls Hkey.
  unfold main, try_statement, try_body.
  rewrite Hparse, Hblock, Hcls.
  split.
  - intros Hinit. now rewrite Hinit, Hkey.
  - intros Hinit Hserve. now rewrite Hinit, Hserve, Hkey.
Qed.

End Launcher.



(** [main_converts_every_KeyError] on a registry whose "json_api" server
    raises a [KeyError] of its own while it is constructed, and whose
    "simple" server raises one while it serves. *)
Lemma main_converts_every_KeyError_witness :
  snd (mock_server.main (H := python3)
                        (H0 := mock_server.faulty_registry) []) =
    mock_server.raised (ValueError "Incorrect server type") /\
  snd (mock_server.main (H := python3)
                        (H0 := mock_server.faulty_registry)
                        ["-t"; "simple"]) =
    mock_server.raised (ValueError "Incorrect server type").
Proof.
  split.
  - destruct (main_converts_every_KeyError
                (H := python3)
                (H0 := mock_server.faulty_registry)
                [] (mock_server.defaults mock_server.get_parser) []
                mock_server.broken_constructor (KeyError "'fixtures'")
                eq_refl eq_refl eq_refl eq_refl) as (Hinit & _).
    rewrite (Hinit eq_refl). reflexivity.
  - destruct (main_converts_every_KeyError
                (H := python3)
                (H0 := mock_server.faulty_registry)
                ["-t"; "simple"]
                (mock_server.set_SERVER_TYPE "simple"
                   (mock_server.defaults mock_server.get_parser))
                [] mock_server.broken_handler (KeyError "'Content-Type'")
                eq_refl eq_refl eq_refl eq_refl) as (_ & Hserve).
    rewrite (Hserve eq_refl eq_refl). reflexivity.
Defined.

(** ** suite: how operations compose *)

Section Monad.
Import suite.

Lemma bind_ok {A B} (m : M A) (k : A -> M B) w a w1 :
  m w = (Ok a, w1) -> (m ≫= k) w = k a w1.
Proof. intros Hm. unfold mbind, M_bind. now rewrite Hm. Qed.

Lemma bind_raise {A B} (m : M A) (k : A -> M B) w e w1 :
  m w = (Raise e, w1) -> (m ≫= k) w = (Raise e, w1).
Proof. intros Hm. unfold mbind, M_bind. now rewrite Hm. Qed.

Lemma bind_inv {A B} (m : M A) (k : A -> M B) w r w' :
  (m ≫= k) w = (r, w') ->
  (exists a w1, m w = (Ok a, w1) /\ k a w1 = (r, w')) \/
  (exists e, m w = (Raise e, w') /\ r = Raise e).
Proof.
  unfold mbind, M_bind. destruct (m w) as [[a | e] w1]; intros Hk.
  - left. now exists a, w1.
  - right. exists e. now inversion Hk.
Qed.

Lemma try_except_inv {A} (body : M A) (handler : exn -> M A) w r w' :
  try_except body handler w = (r, w') ->
  (exists a, body w = (Ok a, w') /\ r = Ok a) \/
  (exists e w1, body w = (Raise e, w1) /\ handler e w1 = (r, w')).
Proof.
  unfold try_except. destruct (body w) as [[a | e] w1]; intros Hh.
  - left. exists a. now inversion Hh.
  - right. now exists e, w1.
Qed.

Lemma try_finally_inv {A} (body : M A) (final : M unit) w r w' :
  try_finally body final w = (r, w') ->
  exists r1 w1 r2, body w = (r1, w1) /\ final w1 = (r2, w') /\
                   (r = r1 \/ exists e, r = Raise e).
Proof.
  unfold try_finally. destruct (body w) as [r1 w1].
  destruct (final w1) as [[u | e] w2] eqn:Hfinal; intros Hr;
    injection Hr as Hr1 Hr2; rewrite <- Hr1, <- Hr2; exists r1, w1.
  - exists (Ok u). eauto.
  - exists (Raise e). eauto.
Qed.

Section Keeps.
Variable R : World -> World -> Prop.
Hypothesis R_refl : forall w, R w w.
Hypothesis R_trans : forall a b c, R a b -> R b c -> R a c.

Lemma keeps_ret {A} (a : A) : keeps R (mret a).
Proof. intros w r w' Heq. inversion Heq. apply R_refl. Qed.

Lemma keeps_raise {A} (e : exn) : keeps R (@raise A e).
Proof. intros w r w' Heq. inversion Heq. apply R_refl. Qed.

Lemma keeps_lift {A} (x : result A) : keeps R (lift x).
Proof. intros w r w' Heq. inversion Heq. apply R_refl. Qed.

Lemma keeps_get : keeps R get.
Proof. intros w r w' Heq. inversion Heq. apply R_refl. Qed.

Lemma keeps_get_self : keeps R get_self.
Proof. intros w r w' Heq. inversion Heq. apply R_refl. Qed.

Lemma keeps_measure_time : keeps R measure_time.
Proof. intros w r w' Heq. inversion Heq. apply R_refl. Qed.

Lemma keeps_timer start : keeps R (timer start).
Proof. intros w r w' Heq. inversion Heq. apply R_refl. Qed.

Lemma keeps_modify (f : World -> World) :
  (forall w, R w (f w)) -> keeps R (modify f).
Proof. intros Hf w r w' Heq. inversion Heq. apply Hf. Qed.

Lemma keeps_bind {A B} (m : M A) (k : A -> M B) :
  keeps R m -> (forall a, keeps R (k a)) -> keeps R (m ≫= k).
Proof.
  intros Hm Hk w r w' Heq.
  destruct (bind_inv _ _ _ _ _ Heq) as [(a & w1 & Hm1 & Hk1) | (e & Hm1 & _)].
  - eapply R_trans; [eapply Hm | eapply Hk]; eassumption.
  - eapply Hm; eassumption.
Qed.

Lemma keeps_try_except {A} (body : M A) (handler : exn -> M A) :
  keeps R body -> (forall e, keeps R (handler e)) ->
  keeps R (try_except body handler).
Proof.
  intros Hb Hh w r w' Heq.
  destruct (try_except_inv _ _ _ _ _ Heq)
    as [(a & Hb1 & _) | (e & w1 & Hb1 & Hh1)].
  - eapply Hb; eassumption.
  - eapply R_trans; [eapply Hb | eapply Hh]; eassumption.
Qed.

Lemma keeps_try_finally {A} (body : M A) (final : M unit) :
  keeps R body -> keeps R final -> keeps R (try_finally body final).
Proof.
  intros Hb Hf w r w' Heq.
  destruct (try_finally_inv _ _ _ _ _ Heq) as (r1 & w1 & r2 & Hb1 & Hf1 & _).
  eapply R_trans; [eapply Hb | eapply Hf]; eassumption.
Qed.

Lemma keeps_for_each {A} (xs : list A) (body : A -> M unit) :
  (forall x, keeps R (body x)) -> keeps R (for_each xs body).
Proof.
  intros Hbody. induction xs as [| x xs IH]; simpl.
  - apply keeps_ret.
  - apply keeps_bind; [apply Hbody | intros _; exact IH].
Qed.

Lemma keeps_mount_method {A} (operation : M A) :
  keeps R operation -> keeps R (mount_method operation).
Proof.
  intros Hop. unfold mount_method.
  apply keeps_bind; [apply keeps_get_self | intros s].
  destruct (__is_mount__ s); [exact Hop | apply keeps_raise].
Qed.

Lemma keeps_build_method {A} (operation : M A) :
  keeps R operation -> keeps R (build_method operation).
Proof.
  intros Hop. unfold build_method.
  apply keeps_bind; [apply keeps_get_self | intros s].
  destruct (__is_build__ s); [exact Hop | apply keeps_raise].
Qed.

Lemma keeps_config : keeps R config.
Proof.
  unfold config. apply keeps_mount_method.
  apply keeps_bind; [apply keeps_get_self | intros s].
  destruct (__mount_data__ s); [apply keeps_ret | apply keeps_raise].
Qed.

Lemma keeps_make_group `{Environment} : keeps R _make_group.
Proof.
  unfold _make_group.
  apply keeps_bind; [apply keeps_get_self | intros s].
  destruct (__case_group_class__ s).
  - apply keeps_bind; [apply keeps_config | intros cfg; apply keeps_ret].
  - apply keeps_bind; [apply keeps_config | intros cfg].
    destruct (GEVENT cfg).
    + apply keeps_bind; [apply keeps_lift | intros _].
      apply keeps_bind; [apply keeps_config | intros; apply keeps_ret].
    + apply keeps_bind; [apply keeps_config | intros cfg1].
      destruct (THREADING cfg1).
      * apply keeps_bind; [apply keeps_config | intros; apply keeps_ret].
      * apply keeps_bind; [apply keeps_config | intros cfg2].
        destruct (MULTIPROCESSING cfg2);
          (apply keeps_bind; [apply keeps_config | intros; apply keeps_ret]).
Qed.

End Keeps.

Lemma only_calls_refl w : only_calls w w.
Proof. now repeat split. Qed.

Lemma only_calls_trans a b c :
  only_calls a b -> only_calls b c -> only_calls a c.
Proof.
  unfold only_calls. intros (? & ? & ? & ?) (? & ? & ? & ?).
  repeat split; congruence.
Qed.

Lemma same_self_refl w : same_self w w.
Proof. reflexivity. Qed.

Lemma same_self_trans a b c : same_self a b -> same_self b c -> same_self a c.
Proof. unfold same_self. congruence. Qed.

Lemma only_calls_same_self {A} (m : M A) :
  keeps only_calls m -> keeps same_self m.
Proof. intros Hm w r w' Heq. now destruct (Hm w r w' Heq). Qed.

Lemma same_but_cases_refl w : same_but_cases w w.
Proof. reflexivity. Qed.

Lemma same_but_cases_trans a b c :
  same_but_cases a b -> same_but_cases b c -> same_but_cases a c.
Proof. unfold same_but_cases. congruence. Qed.

Lemma extensions_grow_refl w : extensions_grow w w.
Proof. split; auto. Qed.

Lemma extensions_grow_trans a b c :
  extensions_grow a b -> extensions_grow b c -> extensions_grow a c.
Proof.
  unfold extensions_grow. intros (Hab & Hab') (Hbc & Hbc').
  split; [congruence | auto].
Qed.

End Monad.

(** ** suite: build rules *)

Section BuildRules.
Import suite.

Lemma truthy_nonempty (s : string) : s <> "" -> truthy (Some s) = true.
Proof.
  intros Hs. unfold truthy. apply negb_true_iff. now apply String.eqb_neq.
Qed.

(** C9.  A rule whose suite name, case name and test name are all
    present (not [None], not empty) renders as
    "<suite_name>:<case_name>.<case_name>": the case name comes twice, and
    the rendering is the same whatever the test name. *)
Theorem BuildRule_str_repeats_case_name (suite case test : string) :
  suite <> "" -> case <> "" -> test <> "" ->
  BuildRule_str {| suite_name := suite; case_name := Some case;
                   test_name := Some test |} =
    suite +:+ ":" +:+ case +:+ "." +:+ case /\
  forall test', test' <> "" ->
    BuildRule_str {| suite_name := suite; case_name := Some case;
                     test_name := Some test' |} =
    BuildRule_str {| suite_name := suite; case_name := Some case;
                     test_name := Some test |}.
Proof.
  intros Hsuite Hcase Htest.
  assert (Hstr : forall t, t <> "" ->
            BuildRule_str {| suite_name := suite; case_name := Some case;
                             test_name := Some t |} =
            suite +:+ ":" +:+ case +:+ "." +:+ case).
  { intros t Ht. unfold BuildRule_str. cbn [suite_name case_name test_name].
    now rewrite !truthy_nonempty. }
  split.
  - now apply Hstr.
  - intros test' Htest'. now rewrite !Hstr.
Qed.

(** [BuildRule("A", "CaseX", "test_login")] renders as "A:CaseX.CaseX". *)
Lemma BuildRule_str_repeats_case_name_witness :
  BuildRule_str {| suite_name := "A"; case_name := Some "CaseX";
                   test_name := Some "test_login" |} = "A:CaseX.CaseX".
Proof.
  destruct (BuildRule_str_repeats_case_name "A" "CaseX" "test_login")
    as (Hstr & _); [discriminate | discriminate | discriminate |].
  exact Hstr.
Defined.

Lemma is_of_name_equality (rule : BuildRule) (s : Suite) :
  is_of rule s = true <-> suite_name rule = name s.
Proof. unfold is_of. apply String.eqb_eq. Qed.

(** C6.  [assign_build_rule(rule)] fails with the [AssertionError] (the
    kind InvalidArgument) when the suite name of the rule differs from the
    name of the suite, [is_of] being that comparison of names, and then
    changes nothing.  When the names are equal, a rule with a case name is
    appended to the build rules of the context, and a rule without a case
    name ([None], or the empty name) is accepted and nothing changes. *)
Theorem assign_build_rule_cases (rule : BuildRule) (w : World) :
  (is_of rule (self w) = true <-> suite_name rule = name (self w)) /\
  (suite_name rule <> name (self w) ->
   assign_build_rule rule w =
     (Raise (AssertionError ("Build rule is not of this suite " +:+
                             BuildRule_str rule)), w)) /\
  (suite_name rule = name (self w) ->
   forall case, case_name rule = Some case -> case <> "" ->
   assign_build_rule rule w =
     (Ok tt,
      set_self
        (set_context
           (set_build_rules
              (build_rules (context (self w)) ++ [rule])
              (context (self w)))
           (self w)) w)) /\
  (suite_name rule = name (self w) ->
   case_name rule = None \/ case_name rule = Some "" ->
   assign_build_rule rule w = (Ok tt, w)).
Proof.
  split; [apply is_of_name_equality |].
  unfold assign_build_rule, mbind, M_bind, get_self.
  split; [| split].
  - intros Hne.
    destruct (is_of rule (self w)) eqn:Hof; [| reflexivity].
    now apply is_of_name_equality in Hof.
  - intros Heq case Hcase Hnonempty.
    apply is_of_name_equality in Heq. rewrite Heq, Hcase.
    now rewrite truthy_nonempty.
  - intros Heq Hnone.
    apply is_of_name_equality in Heq. rewrite Heq.
    destruct Hnone as [-> | ->]; reflexivity.
Qed.

End BuildRules.

(** [assign_build_rule_cases] on the sample suite "smoke": a rule of
    another suite, a rule with a case name, a rule without one. *)
Lemma assign_build_rule_cases_witness :
  let w := suite.new_world (suite.new_suite None [suite.login_case])
                           (suite.sample_config false false false) in
  let other := {| suite.suite_name := "nightly";
                  suite.case_name := Some "LoginCase";
                  suite.test_name := None |} in
  let one_case := {| suite.suite_name := "smoke";
                     suite.case_name := Some "LoginCase";
                     suite.test_name := None |} in
  let whole := {| suite.suite_name := "smoke"; suite.case_name := None;
                  suite.test_name := None |} in
  suite.assign_build_rule other w =
    (Raise (AssertionError
              "Build rule is not of this suite nightly:LoginCase"), w) /\
  suite.build_rules
    (suite.context
       (suite.self (suite.after (suite.assign_build_rule one_case) w))) =
    [one_case] /\
  suite.assign_build_rule whole w = (Ok tt, w).
Proof.
  intros w other one_case whole. split; [| split].
  - destruct (assign_build_rule_cases other w) as (_ & Hfail & _).
    rewrite Hfail; [reflexivity | discriminate].
  - destruct (assign_build_rule_cases one_case w) as (_ & _ & Hadd & _).
    unfold suite.after.
    rewrite (Hadd eq_refl "LoginCase" eq_refl); [reflexivity | discriminate].
  - destruct (assign_build_rule_cases whole w) as (_ & _ & _ & Hskip).
    apply Hskip; [reflexivity | left; reflexivity].
Defined.

(** ** suite: the case-execution group *)

Section Groups.
Import suite.
Context `{Environment}.

Lemma config_mounted (w : World) (data : MountData) :
  __mount_data__ (self w) = Some data ->
  config w = (Ok (MountData_config data), w).
Proof.
  intros Hdata.
  unfold config, mount_method, mbind, M_bind, get_self, __is_mount__.
  rewrite Hdata. simpl. now rewrite Hdata.
Qed.

(** C4.  For a built suite (which is mounted, [build] being
    mount-guarded) the group that [_make_group] makes for [run] is
    decided in this order: the class-level [__case_group_class__] when
    there is one, whatever the flags; else, when the configuration has
    [GEVENT], the gevent group once [check_gevent_supported] has passed,
    which on Python 3 raises [PyVersionError] instead; else the threading
    group when [THREADING] or [MULTIPROCESSING] is set; else the default
    group.  Every group gets the case instances and the configuration. *)
Theorem _make_group_precedence (w : World) (data : MountData) :
  is_build (self w) = true ->
  __mount_data__ (self w) = Some data ->
  let cfg := MountData_config data in
  let cases := case_instances (self w) in
  (forall cls, __case_group_class__ (self w) = Some cls ->
     _make_group w = (Ok (CustomCaseGroup cls cases cfg), w)) /\
  (__case_group_class__ (self w) = None -> GEVENT cfg = true ->
     IS_PYTHON_3 = false ->
     _make_group w = (Ok (GeventCaseGroup cases cfg), w)) /\
  (__case_group_class__ (self w) = None -> GEVENT cfg = true ->
     IS_PYTHON_3 = true ->
     _make_group w =
       (Raise (PyVersionError "gevent lib not supported with python 3"), w)) /\
  (__case_group_class__ (self w) = None -> GEVENT cfg = false ->
     THREADING cfg = true \/ MULTIPROCESSING cfg = true ->
     _make_group w = (Ok (ThreadingCaseGroup cases cfg), w)) /\
  (__case_group_class__ (self w) = None -> GEVENT cfg = false ->
     THREADING cfg = false -> MULTIPROCESSING cfg = false ->
     _make_group w = (Ok (DefaultCaseGroup cases cfg), w)).
Proof.
  intros _ Hdata cfg cases.
  pose proof (config_mounted w data Hdata) as Hcfg.
  unfold _make_group.
  rewrite (bind_ok get_self _ w (self w) w eq_refl).
  repeat split.
  - intros cls ->. now rewrite (bind_ok _ _ _ _ _ Hcfg).
  - intros -> Hgevent Hpy.
    rewrite (bind_ok _ _ _ _ _ Hcfg). fold cfg. rewrite Hgevent.
    unfold pyv.check_gevent_supported. rewrite Hpy.
    rewrite (bind_ok (lift (Ok tt)) _ w tt w eq_refl).
    now rewrite (bind_ok _ _ _ _ _ Hcfg).
  - intros -> Hgevent Hpy.
    rewrite (bind_ok _ _ _ _ _ Hcfg). fold cfg. rewrite Hgevent.
    unfold pyv.check_gevent_supported. rewrite Hpy. reflexivity.
  - intros -> Hgevent Hpool.
    rewrite (bind_ok _ _ _ _ _ Hcfg). fold cfg. rewrite Hgevent.
    rewrite (bind_ok _ _ _ _ _ Hcfg). fold cfg.
    destruct (THREADING cfg) eqn:Hthreading.
    + now rewrite (bind_ok _ _ _ _ _ Hcfg).
    + destruct Hpool as [Hpool | Hpool]; [discriminate |].
      rewrite (bind_ok _ _ _ _ _ Hcfg). fold cfg. rewrite Hpool.
      now rewrite (bind_ok _ _ _ _ _ Hcfg).
  - intros -> Hgevent Hthreading Hmulti.
    rewrite (bind_ok _ _ _ _ _ Hcfg). fold cfg. rewrite Hgevent.
    rewrite (bind_ok _ _ _ _ _ Hcfg). fold cfg. rewrite Hthreading.
    rewrite (bind_ok _ _ _ _ _ Hcfg). fold cfg. rewrite Hmulti.
    now rewrite (bind_ok _ _ _ _ _ Hcfg).
Qed.

End Groups.

(** ** suite: what the operations leave unchanged *)

Ltac keeps_with Rrefl Rtrans :=
  repeat first
    [ apply keeps_ret; exact Rrefl
    | apply keeps_raise; exact Rrefl
    | apply keeps_lift; exact Rrefl
    | apply keeps_get; exact Rrefl
    | apply keeps_get_self; exact Rrefl
    | apply keeps_measure_time; exact Rrefl
    | apply keeps_timer; exact Rrefl
    | apply keeps_config; [exact Rrefl | exact Rtrans]
    | apply keeps_make_group; [exact Rrefl | exact Rtrans]
    | apply keeps_mount_method; [exact Rrefl | exact Rtrans |]
    | apply keeps_build_method; [exact Rrefl | exact Rtrans |]
    | apply keeps_bind; [exact Rtrans | | intros ?]
    | apply keeps_try_except; [exact Rtrans | | intros ?]
    | apply keeps_try_finally; [exact Rtrans | |]
    | apply keeps_for_each; [exact Rrefl | exact Rtrans | intros ?]
    | match goal with
      | |- suite.keeps _ (if ?b then _ else _) => destruct b
      | |- suite.keeps _ (match ?x with _ => _ end) => destruct x
      end ].

Section Frames.
Import suite.
Context `{Environment}.

Lemma bind_get_self {B} (k : Suite -> M B) w :
  (get_self ≫= k) w = k (self w) w.
Proof. reflexivity. Qed.

Lemma bind_get {B} (k : World -> M B) w : (get ≫= k) w = k w w.
Proof. reflexivity. Qed.

Lemma bind_modify {B} (f : World -> World) (k : unit -> M B) w :
  (modify f ≫= k) w = k tt (f w).
Proof. reflexivity. Qed.

Lemma bind_modify_self {B} (f : Suite -> Suite) (k : unit -> M B) w :
  (modify_self f ≫= k) w = k tt (set_self (f (self w)) w).
Proof. reflexivity. Qed.

Lemma keeps_call what b : keeps only_calls (call what b).
Proof.
  intros w r w'. unfold call. destruct (raises b); intros Heq;
    inversion Heq; now repeat split.
Qed.

Lemma keeps_mark_stopped_on phase : keeps only_calls (mark_stopped_on phase).
Proof. apply keeps_modify. intros w. now repeat split. Qed.

Lemma keeps_broadcast hook behaviour :
  keeps only_calls (broadcast hook behaviour).
Proof.
  unfold broadcast, call_to_chain.
  keeps_with only_calls_refl only_calls_trans. apply keeps_call.
Qed.

Lemma keeps_call_callbacks phase callbacks :
  keeps only_calls (call_callbacks phase callbacks).
Proof.
  unfold call_callbacks, call_to_chain.
  keeps_with only_calls_refl only_calls_trans. apply keeps_call.
Qed.

Lemma keeps_start_context : keeps only_calls start_context.
Proof.
  unfold start_context.
  keeps_with only_calls_refl only_calls_trans;
    auto using keeps_call, keeps_mark_stopped_on.
Qed.

Lemma keeps_stop_context : keeps only_calls stop_context.
Proof.
  unfold stop_context.
  keeps_with only_calls_refl only_calls_trans;
    auto using keeps_call, keeps_mark_stopped_on.
Qed.

Lemma keeps_context_on_mount : keeps only_calls context_on_mount.
Proof. apply keeps_broadcast. Qed.

Lemma keeps_context_on_run : keeps only_calls context_on_run.
Proof.
  unfold context_on_run.
  keeps_with only_calls_refl only_calls_trans;
    auto using keeps_call, keeps_mark_stopped_on.
Qed.



End Frames.

(** ** suite: mounting and building *)

Section Building.
Import suite.
Context `{Environment}.

Lemma same_but_cases_fields w w' :
  same_but_cases w w' ->
  is_build (self w') = is_build (self w) /\
  __mount_data__ (self w') = __mount_data__ (self w) /\
  context (self w') = context (self w).
Proof.
  unfold same_but_cases. intros Heq. repeat split.
  - exact (f_equal is_build Heq).
  - exact (f_equal __mount_data__ Heq).
  - exact (f_equal context Heq).
Qed.

Lemma extensions_grow_fields w w' :
  extensions_grow w w' ->
  is_build (self w') = is_build (self w) /\
  __mount_data__ (self w') = __mount_data__ (self w) /\
  require (context (self w')) = require (context (self w)).
Proof.
  intros [Heq _]. repeat split.
  - exact (f_equal is_build Heq).
  - exact (f_equal __mount_data__ Heq).
  - exact (f_equal (fun s => require (context s)) Heq).
Qed.

Lemma keeps_extensions_get ext_name :
  keeps extensions_grow (extensions_get ext_name).
Proof.
  intros w r w'. unfold extensions_get.
  destruct (constructed (registry w) !! ext_name).
  - intros Heq. inversion Heq. apply extensions_grow_refl.
  - destruct (registered (registry w) !! ext_name); intros Heq;
      inversion Heq; split; auto.
Qed.

Lemma keeps_install_one ext_name instance :
  keeps extensions_grow
    (modify_context (fun c =>
       set_extensions (<[ext_name := instance]> (extensions c)) c)).
Proof.
  apply keeps_modify. intros w. split; [reflexivity |].
  intros n Hn. cbn.
  destruct (decide (ext_name = n)) as [-> | Hne].
  - rewrite lookup_insert_eq. eauto.
  - now rewrite lookup_insert_ne.
Qed.

Lemma keeps_install_extensions : keeps extensions_grow install_extensions.
Proof.
  unfold install_extensions.
  keeps_with extensions_grow_refl extensions_grow_trans;
    auto using keeps_extensions_get, keeps_install_one.
Qed.

(** What each round of a loop establishes, and later rounds keep, holds
    after the loop for every element. *)
Lemma for_each_establishes {A} (R : World -> World -> Prop)
    (P : A -> World -> Prop) (body : A -> M unit) :
  (forall w, R w w) ->
  (forall a b c, R a b -> R b c -> R a c) ->
  (forall x, keeps R (body x)) ->
  (forall x w w', body x w = (Ok tt, w') -> P x w') ->
  (forall x w w', P x w -> R w w' -> P x w') ->
  forall xs w w', for_each xs body w = (Ok tt, w') ->
  forall x, x ∈ xs -> P x w'.
Proof.
  intros Rrefl Rtrans Hkeeps Hbody Hstable.
  induction xs as [| y ys IH]; intros w w' Hloop x Hin.
  - inversion Hin.
  - simpl in Hloop.
    destruct (bind_inv _ _ _ _ _ Hloop)
      as [([] & w1 & Hy & Hrest) | (e & _ & Habs)]; [| discriminate].
    apply elem_of_cons in Hin as [-> | Hin].
    + eapply Hstable; [eapply Hbody; eassumption |].
      eapply (keeps_for_each R); eassumption.
    + eapply IH; eassumption.
Qed.

Lemma install_extensions_installs w w' :
  install_extensions w = (Ok tt, w') ->
  forall n, n ∈ require (context (self w)) ->
  is_Some (extensions (context (self w')) !! n).
Proof.
  unfold install_extensions. rewrite bind_get_self.
  apply (for_each_establishes extensions_grow
           (fun n w => is_Some (extensions (context (self w)) !! n)));
    [exact extensions_grow_refl | exact extensions_grow_trans | | |].
  - intros n.
    keeps_with extensions_grow_refl extensions_grow_trans;
      auto using keeps_extensions_get, keeps_install_one.
  - intros n w1 w2. rewrite bind_get_self.
    destruct (extensions (context (self w1)) !! n) eqn:Hn.
    + intros Heq. inversion Heq. subst. rewrite Hn. eauto.
    + intros Hstep.
      destruct (bind_inv _ _ _ _ _ Hstep)
        as [(i & w3 & _ & Hset) | (e & _ & Habs)]; [| discriminate].
      inversion Hset. cbn. rewrite lookup_insert_eq. eauto.
  - intros n w1 w2 Hn [_ Hgrow]. auto.
Qed.

Lemma keeps_extend_cases boxes :
  keeps same_but_cases
    (modify_self (fun s => set_case_instances (case_instances s ++ boxes) s)).
Proof. apply keeps_modify. intros w. reflexivity. Qed.

Lemma keeps___build__ case test :
  keeps same_but_cases (__build__ case test).
Proof.
  unfold __build__.
  keeps_with same_but_cases_refl same_but_cases_trans;
    auto using keeps_extend_cases.
Qed.

Lemma keeps_build_rules case test (s : Suite) :
  keeps same_but_cases
    (if negb (is_empty (build_rules (context s))) && negb (truthy case)
     then for_each (build_rules (context s)) (fun rule =>
            __build__ (case_name rule) (test_name rule))
     else __build__ case test).
Proof.
  destruct (negb (is_empty (build_rules (context s))) && negb (truthy case)).
  - apply keeps_for_each;
      [exact same_but_cases_refl | exact same_but_cases_trans |].
    intros rule. apply keeps___build__.
  - apply keeps___build__.
Qed.

Lemma keeps_shuffle (shuffle : option (list CaseBox -> result (list CaseBox))) :
  keeps same_but_cases
    (match shuffle with
     | Some f =>
         s ← get_self;
         shuffled ← lift (f (case_instances s));
         modify_self (set_case_instances shuffled)
     | None => mret tt
     end).
Proof.
  destruct shuffle as [f |].
  - keeps_with same_but_cases_refl same_but_cases_trans.
    apply keeps_modify. intros w. reflexivity.
  - apply keeps_ret. exact same_but_cases_refl.
Qed.

(** The course of [build] on a mounted suite that is not built: the
    extensions are installed, then the cases are built and shuffled, and
    only if all of that returns is the suite marked. *)
Lemma build_inv case test shuffle w r w' :
  __is_mount__ (self w) = true ->
  is_build (self w) = false ->
  build case test shuffle w = (r, w') ->
  exists w1 w2,
    extensions_grow w w1 /\ same_but_cases w1 w2 /\
    ((exists e, r = Raise e /\ w' = w2) \/
     (r = Ok tt /\ install_extensions w = (Ok tt, w1) /\
      w' = set_self (set_is_build true (self w2)) w2)).
Proof.
  intros Hmount Hbuild. unfold build, mount_method.
  rewrite bind_get_self, Hmount, bind_get_self, Hbuild.
  intros Hrun.
  destruct (bind_inv _ _ _ _ _ Hrun)
    as [([] & w1 & Hinstall & Hrest) | (e & Hinstall & ->)].
  2:{ exists w', w'. split; [eapply keeps_install_extensions; eassumption |].
      split; [apply same_but_cases_refl | left; eauto]. }
  exists w1. pose proof (keeps_install_extensions _ _ _ Hinstall) as Hgrow.
  rewrite bind_get_self in Hrest.
  destruct (bind_inv _ _ _ _ _ Hrest)
    as [([] & w2 & Hcases & Hrest2) | (e & Hcases & ->)].
  2:{ exists w'. split; [exact Hgrow |].
      split; [exact (keeps_build_rules case test _ _ _ _ Hcases) |].
      left; eauto. }
  pose proof (keeps_build_rules case test _ _ _ _ Hcases) as Hk1.
  destruct (bind_inv _ _ _ _ _ Hrest2)
    as [([] & w3 & Hshuffle & Hmark) | (e & Hshuffle & ->)].
  - pose proof (keeps_shuffle shuffle _ _ _ Hshuffle) as Hk2.
    exists w3. split; [exact Hgrow |].
    split; [eapply same_but_cases_trans; eassumption |].
    right. inversion Hmark. auto.
  - pose proof (keeps_shuffle shuffle _ _ _ Hshuffle) as Hk2.
    exists w'. split; [exact Hgrow |].
    split; [eapply same_but_cases_trans; eassumption |].
    left; eauto.
Qed.

End Building.

Section Lifecycle.
Import suite.
Context `{Environment}.

Lemma mount_to_mounts w r w' :
  mount_to w = (r, w') -> __is_mount__ (self w') = true.
Proof.
  unfold mount_to, is_mount. rewrite bind_get_self.
  destruct (__is_mount__ (self w)) eqn:Hmount.
  - intros Heq. inversion Heq. subst. exact Hmount.
  - rewrite bind_modify, bind_get, bind_modify_self. intros Hhooks.
    destruct (keeps_context_on_mount _ _ _ Hhooks) as (Hself & _).
    rewrite Hself. reflexivity.
Qed.

Lemma mount_to_mounted w :
  __is_mount__ (self w) = true ->
  mount_to w = (Raise (AlreadyMounted (name (self w))), w).
Proof.
  intros Hmount. unfold mount_to, is_mount.
  now rewrite bind_get_self, Hmount.
Qed.

Lemma build_built case test shuffle w :
  __is_mount__ (self w) = true -> is_build (self w) = true ->
  build case test shuffle w = (Raise (AlreadyBuilt (class_name (self w))), w).
Proof.
  intros Hmount Hbuild. unfold build, mount_method.
  now rewrite bind_get_self, Hmount, bind_get_self, Hbuild.
Qed.

Lemma build_not_mounted case test shuffle w :
  __is_mount__ (self w) = false ->
  build case test shuffle w = (Raise (NotMounted (name (self w))), w).
Proof.
  intros Hmount. unfold build, mount_method.
  now rewrite bind_get_self, Hmount.
Qed.

(** A suite that [build] has built is mounted and marked, and each of its
    required extensions is installed. *)
Lemma build_returns case test shuffle w w' :
  build case test shuffle w = (Ok tt, w') ->
  __is_mount__ (self w') = true /\ is_build (self w') = true /\
  forall n, n ∈ require (context (self w')) ->
            is_Some (extensions (context (self w')) !! n).
Proof.
  intros Hrun.
  destruct (__is_mount__ (self w)) eqn:Hmount;
    [| rewrite build_not_mounted in Hrun by assumption; discriminate].
  destruct (is_build (self w)) eqn:Hbuild;
    [rewrite build_built in Hrun by assumption; discriminate |].
  destruct (build_inv _ _ _ _ _ _ Hmount Hbuild Hrun)
    as (w1 & w2 & Hgrow & Hcases & [(e & Habs & _) | (_ & Hinstall & ->)]);
    [discriminate |].
  destruct (extensions_grow_fields _ _ Hgrow) as (_ & Hmount1 & Hrequire1).
  destruct (same_but_cases_fields _ _ Hcases) as (_ & Hmount2 & Hcontext2).
  unfold __is_mount__ in *. cbn. rewrite Hmount2, Hmount1.
  repeat split; [exact Hmount |].
  rewrite Hcontext2, Hrequire1. now apply install_extensions_installs.
Qed.

(** C3.  When [build] has returned, the suite is marked built, every
    required extension is installed, and any further [build] fails with
    the [RuntimeError] "... is already built" (the kind AlreadyBuilt).
    After a call of [mount_to], whatever its outcome, a further
    [mount_to] fails with the [RuntimeError] "... already mount" (the
    kind AlreadyMounted).  And when [build] raises on a suite that is not
    built, whether while installing the extensions, constructing the case
    instances or shuffling them, the suite is still not marked built. *)
Theorem build_and_mount_are_one_shot :
  (forall case test shuffle w w',
     build case test shuffle w = (Ok tt, w') ->
     is_build (self w') = true /\
     (forall n, n ∈ require (context (self w')) ->
                is_Some (extensions (context (self w')) !! n)) /\
     forall case' test' shuffle',
       build case' test' shuffle' w' =
         (Raise (AlreadyBuilt (class_name (self w'))), w')) /\
  (forall w r w',
     mount_to w = (r, w') ->
     mount_to w' = (Raise (AlreadyMounted (name (self w'))), w')) /\
  (forall case test shuffle w e w',
     is_build (self w) = false ->
     build case test shuffle w = (Raise e, w') ->
     is_build (self w') = false).
Proof.
  split; [| split].
  - intros case test shuffle w w' Hrun.
    destruct (build_returns _ _ _ _ _ Hrun) as (Hmount & Hbuild & Hinstalled).
    repeat split; auto.
    intros case' test' shuffle'. now apply build_built.
  - intros w r w' Hrun. apply mount_to_mounted.
    eapply mount_to_mounts; eassumption.
  - intros case test shuffle w e w' Hbuild Hrun.
    destruct (__is_mount__ (self w)) eqn:Hmount.
    + destruct (build_inv _ _ _ _ _ _ Hmount Hbuild Hrun)
        as (w1 & w2 & Hgrow & Hcases & [(e' & _ & ->) | (Habs & _)]);
        [| discriminate].
      destruct (extensions_grow_fields _ _ Hgrow) as (Hbuild1 & _).
      destruct (same_but_cases_fields _ _ Hcases) as (Hbuild2 & _).
      congruence.
    + rewrite build_not_mounted in Hrun by assumption.
      inversion Hrun. subst. exact Hbuild.
Qed.

(** C5.  Before the suite is built, [ext(name)] fails with NotBuilt.  On
    a built suite it fails with [ExtensionNotRequired] for a name that is
    not in the required list of the context, whatever the process-wide
    registry holds, and for a required name it returns what the extensions
    mapping of the context has for that name; on a suite that [build] has
    just built, that is an installed instance. *)
Theorem ext_cases (ext_name : string) (w : World) :
  (is_build (self w) = false ->
   ext ext_name w = (Raise (NotBuilt (name (self w))), w)) /\
  (is_build (self w) = true ->
   ext_name ∉ require (context (self w)) ->
   ext ext_name w = (Raise (ExtensionNotRequired ext_name), w)) /\
  (is_build (self w) = true ->
   ext_name ∈ require (context (self w)) ->
   ext ext_name w = (Ok (extensions (context (self w)) !! ext_name), w)) /\
  (forall case test shuffle w0,
     build case test shuffle w0 = (Ok tt, w) ->
     ext_name ∈ require (context (self w)) ->
     exists instance,
       extensions (context (self w)) !! ext_name = Some instance /\
       ext ext_name w = (Ok (Some instance), w)).
Proof.
  assert (Hrequired : is_build (self w) = true ->
            ext_name ∈ require (context (self w)) ->
            ext ext_name w =
              (Ok (extensions (context (self w)) !! ext_name), w)).
  { intros Hbuild Hin. unfold ext, build_method, __is_build__.
    rewrite bind_get_self, Hbuild, bind_get_self.
    now rewrite bool_decide_eq_true_2. }
  repeat split.
  - intros Hbuild. unfold ext, build_method, __is_build__.
    now rewrite bind_get_self, Hbuild.
  - intros Hbuild Hnotin. unfold ext, build_method, __is_build__.
    rewrite bind_get_self, Hbuild, bind_get_self.
    now rewrite bool_decide_eq_false_2.
  - exact Hrequired.
  - intros case test shuffle w0 Hrun Hin.
    destruct (build_returns _ _ _ _ _ Hrun) as (_ & Hbuild & Hinstalled).
    destruct (Hinstalled _ Hin) as [instance Hlookup].
    exists instance. split; [exact Hlookup |].
    now rewrite Hrequired, Hlookup.
Qed.

End Lifecycle.

(** ** suite: running *)

Section Running.
Import suite.
Context `{Environment}.

Lemma keeps_self_call what b : keeps same_self (call what b).
Proof. apply only_calls_same_self, keeps_call. Qed.

Lemma keeps_self_mark phase : keeps same_self (mark_stopped_on phase).
Proof. apply only_calls_same_self, keeps_mark_stopped_on. Qed.

Lemma keeps_self_log (what : Call) :
  keeps same_self (modify (fun w => set_calls (calls w ++ [what]) w)).
Proof. apply keeps_modify. intros w. reflexivity. Qed.

Lemma keeps_self_add_error s trace duration error :
  keeps same_self (add_error s trace duration error).
Proof. apply keeps_modify. intros w. reflexivity. Qed.

(** Whatever [run] does after it has set the flag leaves the suite as it
    is. *)
Lemma run_keeps_flag w r w' :
  is_build (self w) = true ->
  run w = (r, w') -> self w' = set_is_run true (self w).
Proof.
  intros Hbuild. unfold run, build_method, __is_build__.
  rewrite bind_get_self, Hbuild, bind_modify_self.
  match goal with
  | |- ?m ?w0 = _ -> _ => assert (Hkeeps : keeps same_self m)
  end.
  { unfold proxy, run_body, run_handler, scoped, start_context, stop_context,
      context_on_run, context_on_error, broadcast, call_callbacks,
      call_to_chain.
    keeps_with same_self_refl same_self_trans;
      auto using keeps_self_call, keeps_self_mark, keeps_self_add_error,
                 keeps_self_log. }
  intros Hrun. exact (Hkeeps _ _ _ Hrun).
Qed.

(** C2.  On a built suite [run] sets the "is run" flag whatever happens
    next; and when the result asks to stop, or the suite has no case
    instance, [run] returns at once and the world is as before except for
    that flag: no group was made or called, no proxy acquired, no hook
    called, nothing recorded. *)
Theorem run_marks_and_returns_early (w : World) :
  is_build (self w) = true ->
  (forall r w', run w = (r, w') -> is_run (self w') = true) /\
  (should_stop (result_ w) = true \/ case_instances (self w) = [] ->
   run w = (Ok tt, marked_run w)).
Proof.
  intros Hbuild. split.
  - intros r w' Hrun. now rewrite (run_keeps_flag _ _ _ Hbuild Hrun).
  - intros Hskip. unfold run, build_method, __is_build__.
    rewrite bind_get_self, Hbuild, bind_modify_self, bind_get. cbn.
    destruct Hskip as [-> | ->]; [reflexivity |].
    now rewrite orb_true_r.
Qed.





(** How the guarded region of [run] ends when the "on run" broadcast and
    the entry of the scoped context return: as the call of the group ends
    when the exit of the context returns, and with the failure of the
    exit when the exit raises. *)
Lemma run_body_outcome group w w1 w2 r w3 r' w4 :
  context_on_run w = (Ok tt, w1) ->
  start_context w1 = (Ok tt, w2) ->
  call (group_called group) (group_behaviour group) w2 = (r, w3) ->
  stop_context w3 = (r', w4) ->
  run_body group w =
    (match r' with Ok _ => r | Raise e => Raise e end, w4).
Proof.
  intros Hrun Hstart Hgroup Hstop. unfold run_body, scoped.
  rewrite (bind_ok _ _ _ _ _ Hrun), (bind_ok _ _ _ _ _ Hstart).
  unfold try_finally. rewrite Hgroup, Hstop. now destruct r' as [[] | e].
Qed.


End Running.

(** ** The properties on the sample suite *)

(** [_make_group_precedence] on the built sample suite: with the flags
    off, with only the fork-pool flag, with the gevent flag on Python 3,
    and with a class-level group together with the gevent flag. *)
Lemma _make_group_precedence_witness :
  let off := suite.sample_config false false false in
  let forks := suite.sample_config false false true in
  let green := suite.sample_config true true false in
  let cases w := suite.case_instances (suite.self w) in
  fst (suite._make_group (H := suite.calm) (suite.built_world None off)) =
    Ok (suite.DefaultCaseGroup (cases (suite.built_world None off)) off) /\
  fst (suite._make_group (H := suite.calm) (suite.built_world None forks)) =
    Ok (suite.ThreadingCaseGroup (cases (suite.built_world None forks)) forks) /\
  fst (suite._make_group (H := suite.calm) (suite.built_world None green)) =
    Raise (PyVersionError "gevent lib not supported with python 3") /\
  fst (suite._make_group (H := suite.calm)
         (suite.built_world (Some "MyGroup") green)) =
    Ok (suite.CustomCaseGroup "MyGroup"
          (cases (suite.built_world (Some "MyGroup") green)) green).
Proof.
  intros off forks green cases. split; [| split; [| split]].
  - destruct (_make_group_precedence (H := suite.calm)
                (suite.built_world None off)
                {| suite.MountData_config := off |} eq_refl eq_refl)
      as (_ & _ & _ & _ & Hdefault).
    now rewrite Hdefault.
  - destruct (_make_group_precedence (H := suite.calm)
                (suite.built_world None forks)
                {| suite.MountData_config := forks |} eq_refl eq_refl)
      as (_ & _ & _ & Hpool & _).
    rewrite Hpool; [reflexivity | reflexivity | reflexivity | right; reflexivity].
  - destruct (_make_group_precedence (H := suite.calm)
                (suite.built_world None green)
                {| suite.MountData_config := green |} eq_refl eq_refl)
      as (_ & _ & Hgate & _).
    now rewrite Hgate.
  - destruct (_make_group_precedence (H := suite.calm)
                (suite.built_world (Some "MyGroup") green)
                {| suite.MountData_config := green |} eq_refl eq_refl)
      as (Hcustom & _).
    now rewrite (Hcustom "MyGroup").
Defined.

(** [build_and_mount_are_one_shot] on the sample suite: building the
    built suite again, mounting the mounted suite again, and a build of a
    case that is not registered. *)
Lemma build_and_mount_are_one_shot_witness :
  let off := suite.sample_config false false false in
  fst (suite.build (H := suite.calm) None None None
         (suite.built_world None off)) =
    Raise (suite.AlreadyBuilt "Suite") /\
  fst (suite.mount_to (H := suite.calm) (suite.mounted_world None off)) =
    Raise (suite.AlreadyMounted "smoke") /\
  suite.is_build
    (suite.self
       (suite.after (suite.build (H := suite.calm) (Some "Nope") None None)
                    (suite.mounted_world None off))) = false.
Proof.
  intros off.
  destruct (build_and_mount_are_one_shot (H := suite.calm))
    as (Hbuild & Hmount & Hfail).
  split; [| split].
  - destruct (Hbuild None None None (suite.mounted_world None off)
                (suite.built_world None off))
      as (_ & _ & Hagain); [vm_compute; reflexivity |].
    now rewrite Hagain.
  - rewrite (Hmount (suite.fresh_world None off) (Ok tt)
               (suite.mounted_world None off));
      [reflexivity | vm_compute; reflexivity].
  - apply (Hfail (Some "Nope") None None (suite.mounted_world None off)
             (suite.NotFound "Nope"));
      [reflexivity | vm_compute; reflexivity].
Defined.

(** [ext_cases] on the sample suite, which requires "db" while the
    registry also has "cache": before the build, and after it for "db"
    and for "cache". *)
Lemma ext_cases_witness :
  let off := suite.sample_config false false false in
  fst (suite.ext "db" (suite.mounted_world None off)) =
    Raise (suite.NotBuilt "smoke") /\
  suite.registered (suite.registry (suite.built_world None off)) !! "cache" =
    Some "cache#1" /\
  fst (suite.ext "cache" (suite.built_world None off)) =
    Raise (ExtensionNotRequired "cache") /\
  fst (suite.ext "db" (suite.built_world None off)) = Ok (Some "db#1").
Proof.
  intros off. split; [| split; [reflexivity | split]].
  - destruct (ext_cases (H := suite.calm) "db" (suite.mounted_world None off))
      as (Hguard & _).
    now rewrite Hguard.
  - destruct (ext_cases (H := suite.calm) "cache" (suite.built_world None off))
      as (_ & Hmissing & _).
    rewrite Hmissing; [reflexivity | reflexivity |].
    vm_compute. intros Hin. repeat (apply elem_of_cons in Hin as [Hin | Hin];
      [discriminate |]). inversion Hin.
  - destruct (ext_cases (H := suite.calm) "db" (suite.built_world None off))
      as (_ & _ & _ & Hbuilt).
    destruct (Hbuilt None None None (suite.mounted_world None off))
      as (instance & Hlookup & Hext);
      [vm_compute; reflexivity | vm_compute; left |].
    rewrite Hext. f_equal. rewrite <- Hlookup. reflexivity.
Defined.

(** [run_marks_and_returns_early] on the built sample suite when the
    result asks to stop, and on a built suite without cases. *)
Lemma run_marks_and_returns_early_witness :
  suite.run (H := suite.calm) suite.stopping_world =
    (Ok tt, suite.marked_run suite.stopping_world) /\
  suite.run (H := suite.calm) suite.empty_built_world =
    (Ok tt, suite.marked_run suite.empty_built_world) /\
  suite.is_run
    (suite.self
       (suite.after (suite.run (H := suite.failing_with_reporter))
          (suite.built_world None (suite.sample_config false false false)))) =
    true.
Proof.
  split; [| split].
  - destruct (run_marks_and_returns_early (H := suite.calm)
                suite.stopping_world eq_refl) as (_ & Hskip).
    apply Hskip. left. reflexivity.
  - destruct (run_marks_and_returns_early (H := suite.calm)
                suite.empty_built_world eq_refl) as (_ & Hskip).
    apply Hskip. right. reflexivity.
  - destruct (run_marks_and_returns_early (H := suite.failing_with_reporter)
                (suite.built_world None
                   (suite.sample_config false false false)) eq_refl)
      as (Hflag & _).
    eapply Hflag. apply surjective_pairing.
Defined.



(* ===================================================================== *)
(** * Part III.  Further properties                                      *)
(* ===================================================================== *)

(** ** pyv: versions and error messages *)

Section Versions.
Import pyv.

Lemma IS_PYTHON_2_or_3 `{Interpreter} :
  negb IS_PYTHON_3 && negb IS_PYTHON_2 = false.
Proof. unfold IS_PYTHON_2. now destruct IS_PYTHON_3. Qed.

(** X1.  [check_py_version] passes exactly from version 2.7 on, whatever
    the interpreter flags are (its first guard never fires); and both it
    and [check_gevent_supported] pass exactly on the versions 2.7 and
    later of Python 2. *)
Theorem check_py_version_window (version_info : N * N) :
  (forall H : Interpreter,
     check_py_version (H := H) version_info = Ok tt <->
     version_lt version_info (2, 7)%N = false) /\
  (check_py_version (H := interpreter_of version_info) version_info = Ok tt /\
   check_gevent_supported (H := interpreter_of version_info) = Ok tt <->
   fst version_info = 2%N /\ (7 <= snd version_info)%N).
Proof.
  assert (Hcheck : forall H : Interpreter,
            check_py_version (H := H) version_info = Ok tt <->
            version_lt version_info (2, 7)%N = false).
  { intros H. unfold check_py_version. rewrite IS_PYTHON_2_or_3.
    destruct (version_lt version_info (2, 7)%N); split; congruence. }
  split; [exact Hcheck |].
  rewrite Hcheck. unfold check_gevent_supported, interpreter_of, IS_PYTHON_3.
  destruct version_info as [major minor]. unfold version_lt. cbn [fst snd].
  replace (minor <? 0)%N with false by (symmetry; apply N.ltb_ge; lia).
  rewrite andb_false_r, orb_false_r.
  destruct (N.ltb_spec major 3), (N.ltb_spec major 2), (N.eqb_spec major 2),
           (N.ltb_spec minor 7); cbn;
    split; intros [Ha Hb];
    first [discriminate | lia | (split; lia) | (split; reflexivity)].
Qed.

(** [check_py_version_window] on Python 2.7 and on Python 3.4. *)
Lemma check_py_version_window_witness :
  (check_py_version (H := interpreter_of (2, 7)%N) (2, 7)%N = Ok tt /\
   check_gevent_supported (H := interpreter_of (2, 7)%N) = Ok tt) /\
  check_py_version (H := interpreter_of (3, 4)%N) (3, 4)%N = Ok tt.
Proof.
  split.
  - apply (proj2 (check_py_version_window (2, 7)%N)). cbn. split; [reflexivity | lia].
  - apply (proj1 (check_py_version_window (3, 4)%N)). reflexivity.
Defined.

Lemma concat_cons (text : string) (texts : list string) :
  String.concat "" (text :: texts) = text +:+ String.concat "" texts.
Proof.
  destruct texts as [| t ts]; [| reflexivity].
  cbn [String.concat].
  induction text as [| c text IH]; [reflexivity |].
  change (String c text +:+ "") with (String c (text +:+ "")).
  now rewrite <- IH.
Qed.

Lemma join_unicode_strings_all (values : list pyobject) (texts : list string) :
  Forall2 (fun v t => unicode_string v = Ok t) values texts ->
  join_unicode_strings values = Ok (String.concat "" texts).
Proof.
  induction 1 as [| v t values texts Hv _ IH]; [reflexivity |].
  cbn [join_unicode_strings]. now rewrite Hv, IH, concat_cons.
Qed.

Lemma join_unicode_strings_first_failure before v after e :
  Forall (fun u => is_ok (unicode_string u) = true) before ->
  unicode_string v = Raise e ->
  join_unicode_strings (before ++ v :: after) = Raise e.
Proof.
  intros Hbefore Hv. induction Hbefore as [| u before Hu _ IH]; cbn.
  - now rewrite Hv.
  - destruct (unicode_string u); [| discriminate]. now rewrite IH.
Qed.

(** X2.  [get_exc_message] returns the [message] attribute of an error
    that has one, without coercing any argument.  Of an error without it,
    it returns the concatenation of the coerced arguments, in order (the
    empty text when there is none), and when an argument cannot be
    coerced it raises the failure of the first such argument. *)
Theorem get_exc_message_cases (error : pyerror) :
  (forall m, message error = Some m -> get_exc_message error = Ok m) /\
  (message error = None ->
   forall texts,
     Forall2 (fun v t => unicode_string v = Ok t) (args error) texts ->
     get_exc_message error = Ok (String.concat "" texts)) /\
  (message error = None ->
   forall before v after e,
     args error = before ++ v :: after ->
     Forall (fun u => is_ok (unicode_string u) = true) before ->
     unicode_string v = Raise e ->
     get_exc_message error = Raise e).
Proof.
  unfold get_exc_message. split; [| split].
  - now intros m ->.
  - intros -> texts Htexts. now apply join_unicode_strings_all.
  - intros -> before v after e -> Hbefore Hv.
    now apply join_unicode_strings_first_failure.
Qed.

(** [get_exc_message_cases] on an error with a message and an argument
    that cannot be coerced, on [Exception(u'no route', u' to host')], and
    on an error whose second argument is the byte string ['\xff']. *)
Lemma get_exc_message_cases_witness :
  get_exc_message {| message := Some "boom"; args := [byte_string_ff] |} =
    Ok "boom" /\
  get_exc_message {| message := None;
                     args := [text_object "no route"; text_object " to host"] |} =
    Ok "no route to host" /\
  get_exc_message {| message := None;
                     args := [text_object "no route"; byte_string_ff;
                              text_object "!"] |} =
    Raise utf8_failure.
Proof.
  split; [| split].
  - apply (proj1 (get_exc_message_cases
                    {| message := Some "boom"; args := [byte_string_ff] |})).
    reflexivity.
  - apply (proj1 (proj2 (get_exc_message_cases
                           {| message := None;
                              args := [text_object "no route";
                                       text_object " to host"] |}))
             eq_refl ["no route"; " to host"]).
    repeat constructor.
  - apply (proj2 (proj2 (get_exc_message_cases
                           {| message := None;
                              args := [text_object "no route"; byte_string_ff;
                                       text_object "!"] |}))
             eq_refl [text_object "no route"] byte_string_ff
             [text_object "!"]).
    + reflexivity.
    + repeat constructor.
    + reflexivity.
Defined.

End Versions.

(** ** mock_server: the command line and the course of [main] *)

Section CommandLine.
Import mock_server.

Lemma parser_error_is_exit msg : is_exit (parser_error msg).
Proof. split; reflexivity. Qed.

Lemma _match_abbrev_cases parser opt :
  (exists o, _match_abbrev parser opt = Ok o /\
             In o (option_list parser) /\
             String.prefix opt (long_opt o) = true) \/
  (exists e, _match_abbrev parser opt = Raise e /\ is_exit e).
Proof.
  unfold _match_abbrev.
  destruct (List.find _ (option_list parser)) as [o |] eqn:Hfind.
  - left. exists o. apply List.find_some in Hfind as [Hin Heq].
    apply String.eqb_eq in Heq. rewrite <- Heq.
    repeat split; auto. clear. induction (long_opt o) as [| c s IH]; cbn.
    + reflexivity.
    + destruct (ascii_dec c c); [exact IH | congruence].
  - destruct (List.filter _ (option_list parser)) as [| o [| o' rest]] eqn:Hf.
    + right. eexists. split; [reflexivity | apply parser_error_is_exit].
    + left. exists o.
      assert (Hin : In o (List.filter
                (fun o => String.prefix opt (long_opt o))
                (option_list parser))) by (rewrite Hf; now left).
      apply List.filter_In in Hin as [Hin Hprefix]. auto.
    + right. eexists. split; [reflexivity | apply parser_error_is_exit].
Qed.

Lemma _process_short_opts_raises parser cluster next v e :
  _process_short_opts parser cluster next v = Raise e -> is_exit e.
Proof.
  revert v. induction cluster as [| ch rest IH]; intros v; cbn;
    [discriminate |].
  destruct (List.find (short_is ch) (option_list parser)) as [o |].
  2:{ intros Heq. inversion Heq. apply parser_error_is_exit. }
  destruct (action o) as [type_ | set |].
  - destruct (match rest with "" => (next, true) | _ => (Some rest, false) end)
      as [[val |] taken].
    + destruct (type_ val); intros Heq; inversion Heq.
      apply parser_error_is_exit.
    + intros Heq. inversion Heq. apply parser_error_is_exit.
  - apply IH.
  - intros Heq. inversion Heq. split; reflexivity.
Qed.

(** The parser on a non-empty command line: it stops at the terminator,
    or it exits, or it goes on with the next argument, or the one after
    it, and values changed by one step. *)
Lemma _process_args_cons parser arg rargs' v :
  (arg = "--" /\ _process_args parser (arg :: rargs') v = Ok v) \/
  (exists e, _process_args parser (arg :: rargs') v = Raise e /\ is_exit e) \/
  (exists rest v1,
     _process_args parser (arg :: rargs') v = _process_args parser rest v1 /\
     (rest = rargs' \/ exists val, rargs' = val :: rest) /\
     parser_step parser arg v v1).
Proof.
  cbn [_process_args].
  destruct (String.eqb arg "--") eqn:Hterm.
  { left. apply String.eqb_eq in Hterm. auto. }
  right.
  destruct (String.prefix "--" arg) eqn:Hlong.
  - destruct (split_eq arg) as [opt explicit] eqn:Hsplit.
    destruct (_match_abbrev_cases parser opt)
      as [(o & -> & Hin & Hprefix) | (e & -> & Hexit)]; [| left; eauto].
    assert (Hstep : forall v1,
              (exists set, action o = store_const set /\ v1 = set v /\
                           explicit = None) \/
              (exists type_ val update,
                 action o = store type_ /\ type_ val = Some update /\
                 v1 = update v) ->
              parser_step parser arg v v1).
    { intros v1 Hv1. right; left. split; [exact Hlong |].
      exists o. rewrite Hsplit. cbn [fst snd]. auto. }
    destruct (action o) as [type_ | set |] eqn:Haction, explicit as [val |].
    + destruct (type_ val) as [update |] eqn:Hval.
      * right. exists rargs', (update v). split; [reflexivity |].
        split; [now left |]. apply Hstep. right. eauto 6.
      * left. eexists. split; [reflexivity | apply parser_error_is_exit].
    + destruct rargs' as [| val rargs''].
      * left. eexists. split; [reflexivity | apply parser_error_is_exit].
      * destruct (type_ val) as [update |] eqn:Hval.
        -- right. exists rargs'', (update v). split; [reflexivity |].
           split; [right; eauto |]. apply Hstep. right. eauto 6.
        -- left. eexists. split; [reflexivity | apply parser_error_is_exit].
    + left. eexists. split; [reflexivity | apply parser_error_is_exit].
    + right. exists rargs', (set v). split; [reflexivity |].
      split; [now left |]. apply Hstep. left. eauto.
    + left. eexists. split; [reflexivity | apply parser_error_is_exit].
    + left. eexists. split; [reflexivity | split; reflexivity].
  - destruct (String.prefix "-" arg && negb (String.eqb arg "-")).
    + destruct (_process_short_opts parser _ (head rargs') v)
        as [[v1 taken] | e] eqn:Hshort.
      * right.
        assert (Hstep : parser_step parser arg v v1)
          by (right; right; eauto).
        destruct taken, rargs' as [| val rargs'']; eauto 8.
      * left. exists e. split; [reflexivity |].
        eapply _process_short_opts_raises; eassumption.
    + right. exists rargs', v. split; [reflexivity |].
      split; [now left | now left].
Qed.

(** Induction on a command line of which the parser takes one or two
    arguments at a time. *)
Lemma command_line_ind (P : list string -> Prop) :
  P [] ->
  (forall arg rargs',
     P rargs' -> (forall val rest, rargs' = val :: rest -> P rest) ->
     P (arg :: rargs')) ->
  forall argv, P argv.
Proof.
  intros Hnil Hcons argv.
  assert (Hboth : P argv /\ forall val rest, argv = val :: rest -> P rest).
  { induction argv as [| arg rargs' [IH1 IH2]].
    - split; [exact Hnil | discriminate].
    - split; [now apply Hcons |].
      intros val rest Heq. inversion Heq. subst. exact IH1. }
  exact (proj1 Hboth).
Qed.

Lemma _process_args_raises parser argv v e :
  _process_args parser argv v = Raise e -> is_exit e.
Proof.
  revert v. induction argv as [| arg rargs' IH1 IH2] using command_line_ind;
    intros v; [discriminate |].
  destruct (_process_args_cons parser arg rargs' v)
    as [(_ & ->) | [(e' & -> & Hexit) | (rest & v1 & -> & Hrest & _)]].
  - discriminate.
  - intros Heq. inversion Heq. subst. exact Hexit.
  - destruct Hrest as [-> | (val & ->)]; [apply IH1 | eapply IH2; reflexivity].
Qed.

Context `{Interpreter} `{Registry}.

Lemma split_eq_none arg opt : split_eq arg = (opt, None) -> opt = arg.
Proof.
  revert opt. induction arg as [| c rest IH]; intros opt; cbn.
  - now intros [= <-].
  - destruct (Ascii.eqb c "="%char); [discriminate |].
    destruct (split_eq rest) as [opt' value]. intros [= <- ->].
    now rewrite (IH opt' eq_refl).
Qed.

(** Each option of the launcher leaves the gevent flag as it is, except
    the option "--gevent", which has no short name and takes no value. *)
Lemma options_and_GEVENT :
  Forall (fun o =>
            action_keeps (fun v v' => GEVENT v' = GEVENT v) (action o) \/
            (long_opt o = "--gevent" /\ short_opt o = None /\
             exists set, action o = store_const set))
         (option_list get_parser).
Proof.
  unfold get_parser. cbn [option_list].
  repeat (apply List.Forall_cons;
          [first
             [ right; cbn; solve [eauto]
             | left; cbn; intros;
               solve
                 [ exact I
                 | reflexivity
                 | match goal with
                   | Hu : option_map _ ?x = Some _ |- _ =>
                       destruct x; inversion Hu; reflexivity
                   | Hu : Some _ = Some _ |- _ => inversion Hu; reflexivity
                   end ] ] |]).
  apply List.Forall_nil.
Qed.

Lemma _process_short_opts_GEVENT cluster next v v1 taken :
  _process_short_opts get_parser cluster next v = Ok (v1, taken) ->
  GEVENT v1 = GEVENT v.
Proof.
  revert v. induction cluster as [| ch rest IH]; intros v; cbn - [get_parser].
  - now intros [= <- _].
  - destruct (List.find (short_is ch) (option_list get_parser)) as [o |] eqn:Hfind;
      [| discriminate].
    apply List.find_some in Hfind as [Hin Hshort].
    pose proof (proj1 (List.Forall_forall _ _) options_and_GEVENT o Hin)
      as [Hkeeps | (_ & Hnone & _)].
    2:{ unfold short_is in Hshort. now rewrite Hnone in Hshort. }
    destruct (action o) as [type_ | set |]; cbn in Hkeeps.
    + destruct (match rest with "" => (next, true) | _ => (Some rest, false) end)
        as [[val |] taken']; [| discriminate].
      destruct (type_ val) as [update |] eqn:Hval; [| discriminate].
      intros [= <- _]. eapply Hkeeps; eassumption.
    + intros Hrest. rewrite (IH _ Hrest). apply Hkeeps.
    + discriminate.
Qed.

Lemma parser_step_GEVENT arg v v1 :
  parser_step get_parser arg v v1 ->
  GEVENT v1 = GEVENT v \/ abbreviates "--gevent" arg = true.
Proof.
  intros [-> | [(Hlong & o & Hin & Hprefix & Hact) | (next & taken & Hshort)]].
  - now left.
  - pose proof (proj1 (List.Forall_forall _ _) options_and_GEVENT o Hin)
      as [Hkeeps | (Hname & _ & set & Hset)].
    + left. destruct Hact as [(set & Hset & -> & _) |
                              (type_ & val & update & Hstore & Hval & ->)].
      * rewrite Hset in Hkeeps. apply Hkeeps.
      * rewrite Hstore in Hkeeps. eapply Hkeeps; eassumption.
    + right. unfold abbreviates. rewrite Hlong. cbn [andb].
      destruct Hact as [(set' & _ & _ & Hnone) |
                        (type_ & val & update & Hstore & _)];
        [| congruence].
      destruct (split_eq arg) as [opt explicit] eqn:Hsplit.
      cbn [fst snd] in *. subst explicit.
      apply split_eq_none in Hsplit. subst opt. now rewrite <- Hname.
  - left. eapply _process_short_opts_GEVENT; eassumption.
Qed.

Lemma _process_args_GEVENT argv v v' :
  _process_args get_parser argv v = Ok v' ->
  GEVENT v' = true ->
  GEVENT v = true \/ exists a, In a argv /\ abbreviates "--gevent" a = true.
Proof.
  revert v. induction argv as [| arg rargs' IH1 IH2] using command_line_ind;
    intros v.
  - cbn. intros [= <-]. now left.
  - destruct (_process_args_cons get_parser arg rargs' v)
      as [(_ & ->) | [(e' & -> & _) | (rest & v1 & -> & Hrest & Hstep)]].
    + intros [= <-]. now left.
    + discriminate.
    + intros Hparse Hflag.
      assert (Hnext : GEVENT v1 = true \/
                exists a, In a rargs' /\ abbreviates "--gevent" a = true).
      { destruct Hrest as [-> | (val & ->)].
        - now apply IH1.
        - destruct (IH2 val rest eq_refl v1 Hparse Hflag)
            as [Hv1 | (a & Hin & Ha)]; [now left |].
          right. exists a. split; [now right | exact Ha]. }
      destruct Hnext as [Hv1 | (a & Hin & Ha)].
      * destruct (parser_step_GEVENT _ _ _ Hstep) as [Hsame | Harg].
        -- left. congruence.
        -- right. exists arg. split; [now left | exact Harg].
      * right. exists a. split; [now right | exact Ha].
Qed.

(** X3.  Whatever the command line, [main] does things in this order:
    at most one call of [patch_all], and that never on Python 3; then at
    most one construction of a server, of the type and with the arguments
    that the options give; then serving that server.  And [main] ends
    without an exception (it returns, or blocks in [serve_forever]) only
    when it has constructed a server and started serving. *)
Theorem main_events_in_order (argv : list string) :
  exists patched servers,
    fst (main argv) = patched ++ servers /\
    (patched = [] \/ (patched = [patch_all_called] /\ IS_PYTHON_3 = false)) /\
    (servers = [] \/
     exists options,
       parse_args get_parser argv = Ok options /\
       (servers = [constructed (SERVER_TYPE options) (server_args options)] \/
        servers = [constructed (SERVER_TYPE options) (server_args options);
                   serving (SERVER_TYPE options)])) /\
    (snd (main argv) = returned \/ snd (main argv) = blocked ->
     exists key args, servers = [constructed key args; serving key]).
Proof.
  unfold main.
  destruct (parse_args get_parser argv) as [options | e].
  2:{ exists [], []. cbn. repeat split; auto. intros [Hr | Hr]; discriminate. }
  assert (Hgate : gevent_block options =
                    Raise (PyVersionError
                             "gevent lib not supported with python 3") \/
                  exists patched, gevent_block options = Ok patched /\
                    (patched = [] \/
                     (patched = [patch_all_called] /\ IS_PYTHON_3 = false))).
  { unfold gevent_block, pyv.check_gevent_supported.
    destruct (GEVENT options); [| right; eauto].
    destruct IS_PYTHON_3; [now left | right; eauto]. }
  destruct Hgate as [-> | (patched & -> & Hpatched)].
  { exists [], []. cbn. repeat split; auto. intros [Hr | Hr]; discriminate. }
  exists patched.
  unfold try_statement, try_body.
  destruct (SERVER_TYPES !! SERVER_TYPE options) as [cls |].
  2:{ exists []. cbn. repeat split; auto. intros [Hr | Hr]; discriminate. }
  destruct (init cls (server_args options)) as [e |].
  - exists [constructed (SERVER_TYPE options) (server_args options)].
    destruct (isinstance e "KeyError"); cbn; repeat split; eauto;
      intros [Hr | Hr]; discriminate.
  - exists [constructed (SERVER_TYPE options) (server_args options);
            serving (SERVER_TYPE options)].
    destruct (serve_forever cls (server_args options)) as [| | e];
      [| | destruct (isinstance e "KeyError")]; cbn; repeat split; eauto.
Qed.

(** X4.  [main] never ends with a [KeyError]: what the option parser
    raises is [SystemExit], what the gevent gate raises is
    [PyVersionError], and a [KeyError] raised by the registry lookup, by
    the constructor or by [serve_forever] is replaced. *)
Theorem main_never_raises_KeyError (argv : list string) (e : exn) :
  snd (main argv) = raised e -> isinstance e "KeyError" = false.
Proof.
  unfold main.
  destruct (parse_args get_parser argv) as [options | e'] eqn:Hparse.
  2:{ cbn. intros [= <-].
      destruct (_process_args_raises _ _ _ _ Hparse) as [Hclass Hbases].
      unfold isinstance. now rewrite Hclass, Hbases. }
  unfold gevent_block, pyv.check_gevent_supported.
  assert (Htry : snd (try_statement options) = raised e ->
                 isinstance e "KeyError" = false).
  { unfold try_statement.
    destruct (try_body options) as [events [| e' |]]; cbn;
      try discriminate.
    destruct (isinstance e' "KeyError") eqn:Hkey; cbn; intros [= <-];
      [reflexivity | exact Hkey]. }
  destruct (GEVENT options); [destruct IS_PYTHON_3 |].
  - cbn. now intros [= <-].
  - destruct (try_statement options). exact Htry.
  - destruct (try_statement options). exact Htry.
Qed.

(** X5.  The gevent flag is set only by an argument that names the
    option "--gevent" (in full, or by a prefix that begins with two
    dashes): no short option and no other option sets it; so without such
    an argument [main] never calls [patch_all] and never fails in
    [check_gevent_supported]. *)
Theorem gevent_only_on_request (argv : list string) :
  (forall options,
     parse_args get_parser argv = Ok options -> GEVENT options = true ->
     exists a, In a argv /\ abbreviates "--gevent" a = true) /\
  (In patch_all_called (fst (main argv)) ->
   exists a, In a argv /\ abbreviates "--gevent" a = true) /\
  (forallb (fun a => negb (abbreviates "--gevent" a)) argv = true ->
   forall options, parse_args get_parser argv = Ok options ->
   gevent_block options = Ok []).
Proof.
  assert (Hflag : forall options,
     parse_args get_parser argv = Ok options -> GEVENT options = true ->
     exists a, In a argv /\ abbreviates "--gevent" a = true).
  { intros options Hparse Hgevent.
    destruct (_process_args_GEVENT _ _ _ Hparse Hgevent) as [Hd | Ha];
      [discriminate | exact Ha]. }
  split; [exact Hflag | split].
  - unfold main.
    destruct (parse_args get_parser argv) as [options | e] eqn:Hparse;
      [| intros []].
    unfold gevent_block, pyv.check_gevent_supported.
    destruct (GEVENT options) eqn:Hgevent; [now eauto |].
    destruct (try_statement options) as [events outcome] eqn:Htry.
    cbn. intros Hin. exfalso.
    unfold try_statement, try_body in Htry.
    destruct (SERVER_TYPES !! SERVER_TYPE options) as [cls |];
      [destruct (init cls (server_args options)) as [e |];
       [| destruct (serve_forever cls (server_args options)) as [| | e]] |];
      try destruct (isinstance e "KeyError"); cbn in Htry;
      inversion Htry; subst; cbn in Hin; intuition discriminate.
  - intros Hnone options Hparse. unfold gevent_block.
    destruct (GEVENT options) eqn:Hgevent; [| reflexivity].
    destruct (Hflag options Hparse Hgevent) as (a & Hin & Ha).
    rewrite forallb_forall in Hnone. specialize (Hnone a Hin).
    now rewrite Ha in Hnone.
Qed.

End CommandLine.

(** [main_events_in_order] on [--gevent] on Python 2 with the usual
    registry: the patch, then the server, then serving. *)
Lemma main_events_in_order_witness :
  exists patched servers,
    fst (mock_server.main (H := python2)
           (H0 := mock_server.usual_registry) ["--gevent"]) =
      patched ++ servers /\
    (patched = [] \/
     (patched = [mock_server.patch_all_called] /\
      IS_PYTHON_3 (Interpreter := python2) = false)).
Proof.
  destruct (main_events_in_order (H := python2)
              (H0 := mock_server.usual_registry) ["--gevent"])
    as (patched & servers & Hevents & Hpatched & _).
  exists patched, servers. split; assumption.
Defined.

(** [main_never_raises_KeyError] on an unknown type key and on a server
    whose constructor raises a [KeyError]. *)
Lemma main_never_raises_KeyError_witness :
  isinstance (ValueError "Incorrect server type") "KeyError" = false /\
  isinstance (SystemExit "2: no such option: --nope") "KeyError" = false.
Proof.
  split.
  - apply (main_never_raises_KeyError (H := python3)
             (H0 := mock_server.faulty_registry) []).
    reflexivity.
  - apply (main_never_raises_KeyError (H := python3)
             (H0 := mock_server.usual_registry) ["--nope"]).
    reflexivity.
Defined.

(** [gevent_only_on_request] on [--gev -p 8080], where the flag is set by
    the abbreviation, and on [-p 8080 --threading], where it is not
    requested. *)
Lemma gevent_only_on_request_witness :
  (exists a, In a ["--gev"; "-p"; "8080"] /\
             mock_server.abbreviates "--gevent" a = true) /\
  mock_server.gevent_block (H := python3)
    (mock_server.set_THREADING true
       (mock_server.set_PORT 8080
          (mock_server.defaults mock_server.get_parser))) = Ok [].
Proof.
  split.
  - apply (proj1 (gevent_only_on_request (H := python2)
                    (H0 := mock_server.usual_registry)
                    ["--gev"; "-p"; "8080"])
             (mock_server.set_PORT 8080
                (mock_server.set_GEVENT true
                   (mock_server.defaults mock_server.get_parser))));
      reflexivity.
  - apply (proj2 (proj2 (gevent_only_on_request (H := python3)
                           (H0 := mock_server.usual_registry)
                           ["-p"; "8080"; "--threading"])));
      reflexivity.
Defined.

(** ** suite: build rules, layers and mounting *)

Section RulesAndLayers.
Import suite.
Context `{Environment}.

Lemma truthy_false (o : option string) :
  truthy o = false <-> o = None \/ o = Some "".
Proof.
  destruct o as [s |]; cbn; [| intuition].
  rewrite negb_false_iff, String.eqb_eq. intuition congruence.
Qed.

(** X6.  A build rule with a suite name and a case name but no test
    name renders as "<suite_name>:<case_name>"; a rule without a case
    name, or with an empty suite name, renders as its suite name alone,
    whatever its other names are. *)
Theorem BuildRule_str_short_forms (rule : BuildRule) :
  (forall case,
     suite_name rule <> "" -> case_name rule = Some case -> case <> "" ->
     truthy (test_name rule) = false ->
     BuildRule_str rule = suite_name rule +:+ ":" +:+ case) /\
  (truthy (case_name rule) = false \/ suite_name rule = "" ->
   BuildRule_str rule = suite_name rule).
Proof.
  unfold BuildRule_str. split.
  - intros case Hsuite Hcase Hnonempty Htest.
    rewrite Hcase, Htest, !truthy_nonempty by assumption. reflexivity.
  - intros [Hcase | Hsuite].
    + rewrite Hcase. now rewrite !andb_false_r.
    + rewrite Hsuite. reflexivity.
Qed.

(** [BuildRule("A", "CaseX")], [BuildRule("A", None, "test_login")] and
    [BuildRule("", "CaseX", "test_login")]. *)
Lemma BuildRule_str_short_forms_witness :
  BuildRule_str {| suite_name := "A"; case_name := Some "CaseX";
                   test_name := None |} = "A:CaseX" /\
  BuildRule_str {| suite_name := "A"; case_name := None;
                   test_name := Some "test_login" |} = "A" /\
  BuildRule_str {| suite_name := ""; case_name := Some "CaseX";
                   test_name := Some "test_login" |} = "".
Proof.
  split; [| split].
  - apply (proj1 (BuildRule_str_short_forms
                    {| suite_name := "A"; case_name := Some "CaseX";
                       test_name := None |}) "CaseX");
      [discriminate | reflexivity | discriminate | reflexivity].
  - apply (proj2 (BuildRule_str_short_forms
                    {| suite_name := "A"; case_name := None;
                       test_name := Some "test_login" |})).
    left. reflexivity.
  - apply (proj2 (BuildRule_str_short_forms
                    {| suite_name := ""; case_name := Some "CaseX";
                       test_name := Some "test_login" |})).
    right. reflexivity.
Defined.

(** X7.  [assign_build_rule] keeps the build rules as it retains them:
    when every rule of the context is of this suite and has a case name,
    so is every rule afterwards, whether the call returns or fails; the
    rules there were stay, in order, and at most one is added. *)
Theorem assign_build_rule_keeps_rules (rule : BuildRule) (w : World)
    (r : result unit) (w' : World) :
  assign_build_rule rule w = (r, w') ->
  Forall (retained (self w)) (build_rules (context (self w))) ->
  Forall (retained (self w')) (build_rules (context (self w'))) /\
  name (self w') = name (self w) /\
  exists added,
    build_rules (context (self w')) =
      build_rules (context (self w)) ++ added /\
    length added <= 1.
Proof.
  unfold assign_build_rule. rewrite bind_get_self.
  assert (Hsame : forall s', name s' = name (self w) ->
            Forall (retained (self w)) (build_rules (context (self w))) ->
            Forall (retained s') (build_rules (context (self w)))).
  { intros s' Hname Hall. eapply Forall_impl; [exact Hall |].
    intros x [Hof Hcase].
    split; [| exact Hcase]. unfold is_of in *. now rewrite Hname. }
  destruct (is_of rule (self w)) eqn:Hof.
  - destruct (truthy (case_name rule)) eqn:Hcase.
    + intros Heq Hall. inversion Heq. subst. cbn.
      split; [| split; [reflexivity | exists [rule]; split; [reflexivity | cbn; lia]]].
      apply Forall_app. split; [now apply Hsame |].
      constructor; [| constructor]. split; assumption.
    + intros Heq Hall. inversion Heq. subst.
      split; [exact Hall | split; [reflexivity |]].
      exists []. rewrite app_nil_r. split; [reflexivity | cbn; lia].
  - intros Heq Hall. inversion Heq. subst.
    split; [exact Hall | split; [reflexivity |]].
    exists []. rewrite app_nil_r. split; [reflexivity | cbn; lia].
Qed.

(** X8.  A layer gets the hooks of a suite exactly when it is enabled
    and it is a default layer, or a layer of the context of the suite, or
    the layer matched to a class that the suite is an instance of; and the
    layers that [add_layers] attaches are among them when enabled. *)
Theorem with_match_layers_membership (c : SuiteContext) (s : Suite)
    (layer : SuiteLayer) :
  (In layer (with_match_layers c s) <->
   enabled layer = true /\
   (In layer DEFAULT_LAYERS \/ In layer (__layers c) \/
    exists cls, In (cls, layer) MATCH_SUITE_TO_LAYER /\
                suite_isinstance s cls = true)) /\
  (forall added w,
     In layer added -> enabled layer = true ->
     In layer (with_match_layers
                 (context (self (after (add_layers added) w))) s)).
Proof.
  assert (Hmember : forall c', In layer (with_match_layers c' s) <->
     enabled layer = true /\
     (In layer DEFAULT_LAYERS \/ In layer (__layers c') \/
      exists cls, In (cls, layer) MATCH_SUITE_TO_LAYER /\
                  suite_isinstance s cls = true)).
  { intros c'. unfold with_match_layers, layers.
    rewrite !in_app_iff, !List.filter_In, List.in_map_iff. split.
    - intros [[[Hin Hon] | [Hin Hon]] | ([cls l] & Heq & Hin)]; auto.
      cbn in Heq. subst l. apply List.filter_In in Hin as [Hin Hboth].
      apply andb_true_iff in Hboth as [Hinst Hon]. eauto 6.
    - intros [Hon [Hin | [Hin | (cls & Hin & Hinst)]]]; auto.
      right. exists (cls, layer). split; [reflexivity |].
      apply List.filter_In. split; [exact Hin |].
      now rewrite Hinst, Hon. }
  split; [apply Hmember |].
  intros added w Hin Hon. apply Hmember. split; [exact Hon |].
  right; left. cbn. apply in_app_iff. now right.
Qed.

End RulesAndLayers.

(** [assign_build_rule_keeps_rules] on the sample suite, to which a rule
    for "LoginCase" is assigned. *)
Lemma assign_build_rule_keeps_rules_witness :
  let w := suite.fresh_world None (suite.sample_config false false false) in
  let rule := {| suite.suite_name := "smoke";
                 suite.case_name := Some "LoginCase";
                 suite.test_name := None |} in
  Forall (suite.retained (suite.self (suite.after (suite.assign_build_rule rule) w)))
         (suite.build_rules
            (suite.context
               (suite.self (suite.after (suite.assign_build_rule rule) w)))).
Proof.
  intros w rule.
  apply (assign_build_rule_keeps_rules rule w
           (fst (suite.assign_build_rule rule w))
           (suite.after (suite.assign_build_rule rule) w)).
  - apply surjective_pairing.
  - constructor.
Defined.

(** [with_match_layers_membership] with the watching layer as a default
    layer and a layer that is switched off attached to the suite: the
    first gets the hooks, the second does not. *)
Lemma with_match_layers_membership_witness :
  let s := suite.new_suite None [suite.login_case] in
  let c := suite.set___layers [suite.sleeper] (suite.context s) in
  In suite.watcher (suite.with_match_layers (H := suite.calm) c s) /\
  ~ In suite.sleeper (suite.with_match_layers (H := suite.calm) c s).
Proof.
  intros s c. split.
  - apply (proj1 (with_match_layers_membership (H := suite.calm)
                    c s suite.watcher)).
    split; [reflexivity | left; left; reflexivity].
  - intros Hin.
    apply (proj1 (with_match_layers_membership (H := suite.calm)
                    c s suite.sleeper)) in Hin as [Hon _].
    discriminate Hon.
Defined.

(** ** suite: mounting, the setup chain and the course of [run] *)

Section MountAndRun.
Import suite.
Context `{Environment}.

(** X9.  [mount_to] on a suite that is not mounted appends the suite to
    the suites of the program and binds the configuration of the program
    to the suite, and it has done both even when an "on mount" hook then
    raises; from then on [config] returns that configuration, and a
    further [mount_to] changes nothing (the program does not get the
    suite twice). *)
Theorem mount_to_registers_once (w : World) (r : result unit) (w' : World) :
  __is_mount__ (self w) = false ->
  mount_to w = (r, w') ->
  suites (program w') = suites (program w) ++ [name (self w)] /\
  __mount_data__ (self w') =
    Some {| MountData_config := program_config (program w) |} /\
  config w' = (Ok (program_config (program w)), w') /\
  forall r2 w2, mount_to w' = (r2, w2) -> w2 = w'.
Proof.
  intros Hmount Hhooks. unfold mount_to, is_mount in Hhooks.
  rewrite bind_get_self, Hmount, bind_modify, bind_get, bind_modify_self
    in Hhooks.
  destruct (keeps_context_on_mount _ _ _ Hhooks) as (Hself & Hprogram & _).
  cbn in Hself, Hprogram.
  assert (Hdata : __mount_data__ (self w') =
            Some {| MountData_config := program_config (program w) |})
    by now rewrite Hself.
  split; [now rewrite Hprogram |].
  split; [exact Hdata |].
  split; [exact (config_mounted _ _ Hdata) |].
  intros r2 w2. rewrite mount_to_mounted.
  - now intros [= _ <-].
  - unfold __is_mount__. now rewrite Hdata.
Qed.

Lemma _make_group_gevent (w : World) (data : MountData) :
  __mount_data__ (self w) = Some data ->
  __case_group_class__ (self w) = None ->
  GEVENT (MountData_config data) = true ->
  _make_group w =
    (match pyv.check_gevent_supported with
     | Raise e => Raise e
     | Ok _ => Ok (GeventCaseGroup (case_instances (self w))
                                   (MountData_config data))
     end, w).
Proof.
  intros Hdata Hclass Hgevent.
  pose proof (config_mounted w data Hdata) as Hcfg.
  unfold _make_group. rewrite bind_get_self, Hclass.
  rewrite (bind_ok _ _ _ _ _ Hcfg), Hgevent.
  destruct pyv.check_gevent_supported as [[] | e].
  - rewrite (bind_ok (lift (Ok tt)) _ w tt w eq_refl).
    now rewrite (bind_ok _ _ _ _ _ Hcfg).
  - reflexivity.
Qed.

(** X10.  When the configuration asks for gevent on Python 3 and the
    suite has no group class of its own, [run] on a built suite with
    cases raises the [PyVersionError] of the gate: the "is run" flag is
    set, and that is all: the error is not recorded, no result proxy is
    acquired and no hook is called, although [PyVersionError] need not be
    in the always-propagate set. *)
Theorem run_fails_at_gevent_gate (w : World) (data : MountData) :
  is_build (self w) = true ->
  __mount_data__ (self w) = Some data ->
  __case_group_class__ (self w) = None ->
  GEVENT (MountData_config data) = true ->
  IS_PYTHON_3 = true ->
  should_stop (result_ w) = false ->
  case_instances (self w) <> [] ->
  run w =
    (Raise (PyVersionError "gevent lib not supported with python 3"),
     marked_run w).
Proof.
  intros Hbuild Hdata Hclass Hgevent Hpy Hstop Hcases.
  unfold run, build_method, __is_build__.
  rewrite bind_get_self, Hbuild, bind_modify_self, bind_get. cbn.
  rewrite Hstop. destruct (case_instances (self w)) eqn:Hinstances;
    [congruence |]. cbn. fold (marked_run w).
  assert (Hgroup : _make_group (marked_run w) =
            (Raise (PyVersionError "gevent lib not supported with python 3"),
             marked_run w)).
  { rewrite (_make_group_gevent (marked_run w) data); auto.
    unfold pyv.check_gevent_supported. now rewrite Hpy. }
  now rewrite (bind_raise _ _ _ _ _ Hgroup).
Qed.

Lemma chain_returns {T} (ev : T -> Call) (beh : T -> Behaviour)
    (xs : list T) (w : World) :
  Forall (fun x => raises (beh x) = None) xs ->
  exists w',
    for_each xs (fun x => call (ev x) (beh x)) w = (Ok tt, w') /\
    calls w' = calls w ++ List.map ev xs /\
    only_calls w w'.
Proof.
  intros Hall. revert w.
  induction Hall as [| x xs Hx _ IH]; intros w.
  - exists w. cbn. rewrite app_nil_r. auto using only_calls_refl.
  - assert (Hcall : call (ev x) (beh x) w =
              (Ok tt, set_clock (clock w + takes (beh x))%N
                        (set_calls (calls w ++ [ev x]) w)))
      by (unfold call; now rewrite Hx).
    destruct (IH (set_clock (clock w + takes (beh x))%N
                    (set_calls (calls w ++ [ev x]) w)))
      as (w' & Hrest & Hcalls & Honly).
    exists w'. cbn [for_each]. rewrite (bind_ok _ _ _ _ _ Hcall).
    split; [exact Hrest |]. split.
    + rewrite Hcalls. cbn. now rewrite <- app_assoc.
    + eapply only_calls_trans; [| exact Honly]. now repeat split.
Qed.

Lemma chain_fails {T} (ev : T -> Call) (beh : T -> Behaviour)
    (before : list T) (x : T) (after : list T) (e : exn) (w : World) :
  Forall (fun x => raises (beh x) = None) before ->
  raises (beh x) = Some e ->
  exists w',
    for_each (before ++ x :: after) (fun x => call (ev x) (beh x)) w =
      (Raise e, w') /\
    calls w' = calls w ++ List.map ev before ++ [ev x] /\
    only_calls w w'.
Proof.
  intros Hall Hx. revert w.
  induction Hall as [| y ys Hy _ IH]; intros w.
  - eexists. cbn [app for_each].
    assert (Hcall : call (ev x) (beh x) w =
              (Raise e, set_clock (clock w + takes (beh x))%N
                          (set_calls (calls w ++ [ev x]) w)))
      by (unfold call; now rewrite Hx).
    rewrite (bind_raise _ _ _ _ _ Hcall).
    split; [reflexivity |]. split; [reflexivity | now repeat split].
  - assert (Hcall : call (ev y) (beh y) w =
              (Ok tt, set_clock (clock w + takes (beh y))%N
                        (set_calls (calls w ++ [ev y]) w)))
      by (unfold call; now rewrite Hy).
    destruct (IH (set_clock (clock w + takes (beh y))%N
                    (set_calls (calls w ++ [ev y]) w)))
      as (w' & Hrest & Hcalls & Honly).
    exists w'. cbn [app for_each]. rewrite (bind_ok _ _ _ _ _ Hcall).
    split; [exact Hrest |]. split.
    + rewrite Hcalls. cbn. now rewrite <- app_assoc.
    + eapply only_calls_trans; [| exact Honly]. now repeat split.
Qed.

(** X11.  [start_context] calls the setup callbacks in the order they
    were added (the suite's own [setup] first, then those of
    [add_setup]), and then the "on setup" hook of every layer of the
    suite, in order, and returns when all of them return.  When a setup
    callback raises, the callbacks after it and all the hooks are not
    called, the failure is marked with the phase "start_context", and the
    same exception propagates. *)
Theorem start_context_in_order (w : World) :
  let callbacks := setup_callbacks (context (self w)) in
  let layers_ := with_match_layers (context (self w)) (self w) in
  (Forall (fun f => raises (callback_call f) = None) callbacks ->
   Forall (fun layer => raises (on_setup layer) = None) layers_ ->
   exists w',
     start_context w = (Ok tt, w') /\
     calls w' = calls w ++ callback_calls "setup" callbacks ++
                hook_calls "on_setup" layers_) /\
  (forall before f after e,
     callbacks = before ++ f :: after ->
     Forall (fun f => raises (callback_call f) = None) before ->
     raises (callback_call f) = Some e ->
     exists w',
       start_context w = (Raise e, w') /\
       calls w' = calls w ++ callback_calls "setup" before ++
                  [callback_called "setup" (callback_name f);
                   stopped_on "start_context"]) /\
  (forall f,
     setup_callbacks (context (self (after (add_setup f) w))) =
       callbacks ++ [f]).
Proof.
  intros callbacks layers_. split; [| split].
  - intros Hcallbacks Hhooks.
    destruct (chain_returns
                (fun f => callback_called "setup" (callback_name f))
                callback_call callbacks w Hcallbacks)
      as (w1 & Hchain & Hcalls1 & (Hself1 & _)).
    destruct (chain_returns
                (fun layer => hook_called (layer_name layer) "on_setup")
                on_setup layers_ w1 Hhooks)
      as (w2 & Hchain2 & Hcalls2 & _).
    exists w2. split.
    + unfold start_context, try_except, call_callbacks, broadcast,
        call_to_chain.
      rewrite bind_get_self. fold callbacks.
      rewrite (bind_ok _ _ _ _ _ Hchain), bind_get_self, Hself1.
      fold layers_. now rewrite Hchain2.
    + rewrite Hcalls2, Hcalls1. unfold callback_calls, hook_calls.
      now rewrite <- app_assoc.
  - intros before f after e Hsplit Hbefore Hf.
    destruct (chain_fails
                (fun f => callback_called "setup" (callback_name f))
                callback_call before f after e w Hbefore Hf)
      as (w1 & Hchain & Hcalls1 & _).
    eexists. split.
    + unfold start_context, try_except, call_callbacks, call_to_chain.
      rewrite bind_get_self. fold callbacks. rewrite Hsplit.
      rewrite (bind_raise _ _ _ _ _ Hchain).
      unfold mark_stopped_on. rewrite bind_modify. reflexivity.
    + cbn. rewrite Hcalls1. unfold callback_calls.
      now rewrite <- !app_assoc.
  - intros f. reflexivity.
Qed.



End MountAndRun.

(** [mount_to_registers_once] on the sample suite with the reporting
    layer, whose hooks return. *)
Lemma mount_to_registers_once_witness :
  let w := suite.fresh_world None (suite.sample_config false false false) in
  suite.suites
    (suite.program (suite.after (suite.mount_to (H := suite.calm)) w)) =
    ["smoke"].
Proof.
  intros w.
  destruct (mount_to_registers_once (H := suite.calm) w
              (fst (suite.mount_to (H := suite.calm) w))
              (suite.after (suite.mount_to (H := suite.calm)) w)
              eq_refl (surjective_pairing _)) as (Hsuites & _).
  rewrite Hsuites. reflexivity.
Defined.

(** [run_fails_at_gevent_gate] on the sample suite built for a
    configuration with the gevent flag, on Python 3. *)
Lemma run_fails_at_gevent_gate_witness :
  let green := suite.sample_config true false false in
  suite.run (H := suite.calm) (suite.built_world None green) =
    (Raise (PyVersionError "gevent lib not supported with python 3"),
     suite.marked_run (suite.built_world None green)).
Proof.
  intros green.
  apply (run_fails_at_gevent_gate (H := suite.calm)
           (suite.built_world None green)
           {| suite.MountData_config := green |});
    try (vm_compute; reflexivity).
  vm_compute. discriminate.
Defined.

(** [start_context_in_order] on the sample suite after
    [add_setup(load_users)], and after [add_setup(start_database)], a
    callback that raises. *)
Lemma start_context_in_order_witness :
  let w0 := suite.built_world None (suite.sample_config false false false) in
  let w := suite.after (suite.add_setup suite.fixture) w0 in
  let w_broken := suite.after (suite.add_setup suite.broken_fixture) w0 in
  (exists w',
     suite.start_context (H := suite.calm) w = (Ok tt, w') /\
     suite.calls w' =
       suite.calls w ++
       [suite.callback_called "setup" "setup";
        suite.callback_called "setup" "load_users";
        suite.hook_called "watcher" "on_setup"]) /\
  (exists w',
     suite.start_context (H := suite.calm) w_broken =
       (Raise (RuntimeError "port in use"), w') /\
     suite.calls w' =
       suite.calls w_broken ++
       [suite.callback_called "setup" "setup";
        suite.callback_called "setup" "start_database";
        suite.stopped_on "start_context"]).
Proof.
  intros w0 w w_broken. split.
  - destruct (start_context_in_order (H := suite.calm) w) as (Hall & _).
    destruct Hall as (w' & Hrun & Hcalls).
    + vm_compute. repeat constructor.
    + vm_compute. repeat constructor.
    + exists w'. split; [exact Hrun |]. rewrite Hcalls.
      vm_compute. reflexivity.
  - destruct (start_context_in_order (H := suite.calm) w_broken)
      as (_ & Hfail & _).
    destruct (Hfail [{| suite.callback_name := "setup";
                        suite.callback_call := suite.returns 0 |}]
                    suite.broken_fixture [] (RuntimeError "port in use"))
      as (w' & Hrun & Hcalls).
    + vm_compute. reflexivity.
    + repeat constructor.
    + reflexivity.
    + exists w'. split; [exact Hrun |]. rewrite Hcalls. reflexivity.
Defined.


(** ** suite: what [build] constructs *)

Section BuildMore.
Import suite.
Context `{Environment}.

Lemma installed_kept_refl w : installed_kept w w.
Proof. repeat split; auto. Qed.

Lemma installed_kept_trans a b c :
  installed_kept a b -> installed_kept b c -> installed_kept a c.
Proof.
  intros (Hab1 & Hab2 & Hab3) (Hbc1 & Hbc2 & Hbc3). repeat split.
  - auto.
  - intros n Hn. destruct (Hbc2 n Hn) as [Hb | Hb]; [auto |].
    right. now rewrite <- Hab3.
  - congruence.
Qed.

Lemma installed_kept_same_context w w' :
  context (self w') = context (self w) -> installed_kept w w'.
Proof. intros Heq. unfold installed_kept. rewrite Heq. repeat split; auto. Qed.

Lemma extensions_get_self ext_name w r w' :
  extensions_get ext_name w = (r, w') -> self w' = self w.
Proof.
  unfold extensions_get.
  destruct (constructed (registry w) !! ext_name);
    [| destruct (registered (registry w) !! ext_name)];
    intros Heq; inversion Heq; reflexivity.
Qed.

Lemma install_loop_keeps_installed (xs : list string) w r w' :
  (forall n, n ∈ xs -> n ∈ require (context (self w))) ->
  for_each xs (fun ext_name =>
    s ← get_self;
    match extensions (context s) !! ext_name with
    | Some _ => mret tt
    | None =>
        instance ← extensions_get ext_name;
        modify_context (fun c =>
          set_extensions (<[ext_name := instance]> (extensions c)) c)
    end) w = (r, w') ->
  installed_kept w w'.
Proof.
  revert w. induction xs as [| x xs IH]; intros w Hxs.
  - intros Heq. inversion Heq. apply installed_kept_refl.
  - cbn [for_each]. intros Hloop.
    assert (Hstep : forall r1 w1,
              (get_self ≫= fun s =>
                 match extensions (context s) !! x with
                 | Some _ => mret tt
                 | None =>
                     instance ← extensions_get x;
                     modify_context (fun c =>
                       set_extensions (<[x := instance]> (extensions c)) c)
                 end) w = (r1, w1) -> installed_kept w w1).
    { intros r1 w1. rewrite bind_get_self.
      destruct (extensions (context (self w)) !! x) eqn:Hx.
      - intros Heq. inversion Heq. apply installed_kept_refl.
      - intros Hone.
        destruct (bind_inv _ _ _ _ _ Hone)
          as [(i & w2 & Hget & Hset) | (e & Hget & _)].
        + apply extensions_get_self in Hget. inversion Hset. cbn.
          rewrite Hget. repeat split; cbn.
          * intros n v Hn. destruct (decide (x = n)) as [-> | Hne];
              [congruence | now rewrite lookup_insert_ne].
          * intros n Hn. destruct (decide (x = n)) as [-> | Hne].
            -- right. apply Hxs. now left.
            -- left. now rewrite lookup_insert_ne in Hn.
        + apply extensions_get_self in Hget.
          apply installed_kept_same_context. now rewrite Hget. }
    destruct (bind_inv _ _ _ _ _ Hloop)
      as [([] & w1 & Hone & Hrest) | (e & Hone & _)].
    + pose proof (Hstep _ _ Hone) as Hkept.
      eapply installed_kept_trans; [exact Hkept |].
      apply (IH w1); [| exact Hrest].
      intros n Hn. destruct Hkept as (_ & _ & ->). apply Hxs. now right.
    + eapply Hstep; eassumption.
Qed.

Lemma keeps_installed_install_extensions :
  keeps installed_kept install_extensions.
Proof.
  intros w r w'. unfold install_extensions. rewrite bind_get_self.
  apply install_loop_keeps_installed. auto.
Qed.

Lemma keeps_installed_modify_self (f : Suite -> Suite) :
  (forall s, context (f s) = context s) ->
  keeps installed_kept (modify_self f).
Proof.
  intros Hf. apply keeps_modify. intros w.
  apply installed_kept_same_context. cbn. apply Hf.
Qed.

(** X13.  [install_extensions], and [build] as a whole, never replace an
    extension that the context already has, install an extension only
    for a required name, and leave the list of required names as it is;
    and that holds as well when they fail part of the way. *)
Theorem build_keeps_installed_extensions (w : World) (r : result unit)
    (w' : World) :
  (install_extensions w = (r, w') -> installed_kept w w') /\
  (forall case test shuffle,
     build case test shuffle w = (r, w') -> installed_kept w w').
Proof.
  split; [apply keeps_installed_install_extensions |].
  intros case test shuffle. revert w r w'.
  change (keeps installed_kept (build case test shuffle)).
  unfold build. apply keeps_mount_method;
    [exact installed_kept_refl | exact installed_kept_trans |].
  apply keeps_bind; [exact installed_kept_trans | | intros s].
  { apply keeps_get_self. exact installed_kept_refl. }
  destruct (is_build s); [apply keeps_raise; exact installed_kept_refl |].
  apply keeps_bind; [exact installed_kept_trans | | intros _].
  { exact keeps_installed_install_extensions. }
  unfold __build__.
  keeps_with installed_kept_refl installed_kept_trans;
    apply keeps_installed_modify_self; intros; reflexivity.
Qed.

Lemma extensions_grow_suite w w' :
  extensions_grow w w' ->
  case_instances (self w') = case_instances (self w) /\
  case_classes (self w') = case_classes (self w) /\
  build_rules (context (self w')) = build_rules (context (self w)) /\
  __mount_data__ (self w') = __mount_data__ (self w).
Proof.
  intros [Heq _]. repeat split.
  - exact (f_equal case_instances Heq).
  - exact (f_equal case_classes Heq).
  - exact (f_equal (fun s => build_rules (context s)) Heq).
  - exact (f_equal __mount_data__ Heq).
Qed.

Lemma cases_kept_refl w : cases_kept w w.
Proof. exists []. now rewrite app_nil_r. Qed.

Lemma cases_kept_trans a b c :
  cases_kept a b -> cases_kept b c -> cases_kept a c.
Proof.
  unfold cases_kept. intros [k1 Hab] [k2 Hbc]. exists (k1 ++ k2).
  now rewrite Hbc, Hab, app_assoc.
Qed.

Lemma keeps_cases_install_extensions : keeps cases_kept install_extensions.
Proof.
  intros w r w' Hrun.
  destruct (extensions_grow_suite _ _ (keeps_install_extensions _ _ _ Hrun))
    as (Heq & _).
  unfold cases_kept. rewrite Heq. exists []. now rewrite app_nil_r.
Qed.

Lemma keeps_cases_extend boxes :
  keeps cases_kept
    (modify_self (fun s => set_case_instances (case_instances s ++ boxes) s)).
Proof. apply keeps_modify. intros w. now exists boxes. Qed.

Lemma keeps_cases_mark b : keeps cases_kept (modify_self (set_is_build b)).
Proof.
  apply keeps_modify. intros w. exists []. cbn. now rewrite app_nil_r.
Qed.

(** X14.  Without a shuffle function, [build] only appends: the case
    instances that the suite had are still there afterwards, first and
    in the same order, whether [build] returns or fails; a [build] that
    fails after it has constructed some instances leaves those in the
    suite. *)
Theorem build_only_appends (case test : option string) (w : World)
    (r : result unit) (w' : World) :
  build case test None w = (r, w') -> cases_kept w w'.
Proof.
  revert w r w'. change (keeps cases_kept (build case test None)).
  unfold build. apply keeps_mount_method;
    [exact cases_kept_refl | exact cases_kept_trans |].
  apply keeps_bind; [exact cases_kept_trans | | intros s].
  { apply keeps_get_self. exact cases_kept_refl. }
  destruct (is_build s); [apply keeps_raise; exact cases_kept_refl |].
  apply keeps_bind; [exact cases_kept_trans | | intros _].
  { exact keeps_cases_install_extensions. }
  unfold __build__.
  keeps_with cases_kept_refl cases_kept_trans;
    auto using keeps_cases_extend, keeps_cases_mark.
Qed.

(** The course of a [build] that returns, without a shuffle function. *)
Lemma build_course case test w w' :
  __is_mount__ (self w) = true ->
  is_build (self w) = false ->
  build case test None w = (Ok tt, w') ->
  exists w1 w2,
    install_extensions w = (Ok tt, w1) /\
    (if negb (is_empty (build_rules (context (self w1)))) && negb (truthy case)
     then for_each (build_rules (context (self w1))) (fun rule =>
            __build__ (case_name rule) (test_name rule))
     else __build__ case test) w1 = (Ok tt, w2) /\
    w' = set_self (set_is_build true (self w2)) w2.
Proof.
  intros Hmount Hbuild. unfold build, mount_method.
  rewrite bind_get_self, Hmount, bind_get_self, Hbuild. intros Hrun.
  destruct (bind_inv _ _ _ _ _ Hrun)
    as [([] & w1 & Hinstall & Hrest) | (e & _ & Habs)]; [| discriminate].
  rewrite bind_get_self in Hrest.
  destruct (bind_inv _ _ _ _ _ Hrest)
    as [([] & w2 & Hcases & Hrest2) | (e & _ & Habs)]; [| discriminate].
  exists w1, w2. repeat split; auto.
  now inversion Hrest2.
Qed.

Lemma bind_lift {A B} (x : result A) (k : A -> M B) w :
  (lift x ≫= k) w =
    match x with Ok a => k a w | Raise e => (Raise e, w) end.
Proof. now destruct x. Qed.

(** The loop of [__build__] over the registered classes. *)
Lemma build_loop (classes : list CaseClass) (data : MountData) w w' :
  __mount_data__ (self w) = Some data ->
  for_each classes (fun cls =>
    cfg ← config;
    s ← get_self;
    boxes ← lift (load_tests_from_case cls cfg None
                                       (extensions (context s)));
    modify_self (fun s => set_case_instances (case_instances s ++ boxes) s))
    w = (Ok tt, w') ->
  exists boxes,
    Forall2 (fun cls bs =>
               load_tests_from_case cls (MountData_config data) None
                 (extensions (context (self w))) = Ok bs)
            classes boxes /\
    case_instances (self w') = case_instances (self w) ++ concat boxes /\
    same_but_cases w w'.
Proof.
  revert w. induction classes as [| cls classes IH]; intros w Hdata.
  - intros Heq. inversion Heq. subst. exists [].
    cbn. rewrite app_nil_r. repeat split. constructor.
  - cbn [for_each]. intros Hloop.
    destruct (bind_inv _ _ _ _ _ Hloop)
      as [([] & w1 & Hone & Hrest) | (e & _ & Habs)]; [| discriminate].
    rewrite (bind_ok _ _ _ _ _ (config_mounted w data Hdata)),
      bind_get_self, bind_lift in Hone.
    destruct (load_tests_from_case cls (MountData_config data) None
                (extensions (context (self w)))) as [bs | e] eqn:Hload;
      [| discriminate].
    inversion Hone. subst w1. clear Hone.
    eapply IH in Hrest; [| exact Hdata].
    destruct Hrest as (boxes & Hall & Hinstances & Hsame).
    exists (bs :: boxes). split; [| split].
    + constructor; [exact Hload | exact Hall].
    + rewrite Hinstances. cbn. now rewrite <- app_assoc.
    + eapply same_but_cases_trans; [| exact Hsame]. reflexivity.
Qed.

(** X15.  A [build] without a case name, on a suite without build rules,
    asks the loader for the units of every registered class, in the order
    of registration, with the configuration of the mount, the installed
    extensions and no method name (a test name that is given without a
    case name is not used), and appends what the loader returns, class
    after class, to the case instances. *)
Theorem build_all_in_order (test : option string) (case : option string)
    (data : MountData) (w w' : World) :
  __mount_data__ (self w) = Some data ->
  is_build (self w) = false ->
  build_rules (context (self w)) = [] ->
  truthy case = false ->
  build case test None w = (Ok tt, w') ->
  exists boxes,
    Forall2 (fun cls bs =>
               load_tests_from_case cls (MountData_config data) None
                 (extensions (context (self w'))) = Ok bs)
            (case_classes (self w)) boxes /\
    case_instances (self w') = case_instances (self w) ++ concat boxes.
Proof.
  intros Hdata Hbuild Hrules Hcase Hrun.
  assert (Hmount : __is_mount__ (self w) = true)
    by (unfold __is_mount__; now rewrite Hdata).
  destruct (build_course _ _ _ _ Hmount Hbuild Hrun)
    as (w1 & w2 & Hinstall & Hcases & ->).
  destruct (extensions_grow_suite _ _
              (keeps_install_extensions _ _ _ Hinstall))
    as (Hinst1 & Hclasses1 & Hrules1 & Hdata1).
  rewrite Hrules in Hrules1. rewrite Hdata in Hdata1.
  rewrite Hrules1 in Hcases. cbn [is_empty negb andb] in Hcases.
  unfold __build__ in Hcases. rewrite Hcase, bind_get_self in Hcases.
  destruct (build_loop _ data _ _ Hdata1 Hcases)
    as (boxes & Hall & Hinstances & Hsame).
  destruct (same_but_cases_fields _ _ Hsame) as (_ & _ & Hcontext).
  rewrite Hclasses1 in Hall. rewrite Hinst1 in Hinstances.
  exists boxes. cbn. rewrite Hcontext. split; assumption.
Qed.

(** X16.  A [build] with a case name builds that one case, whatever
    build rules the context has: it looks the class up among the
    registered ones, asks the loader for its units with the given test
    name, and appends them; the rules are not consulted. *)
Theorem build_named_case_overrides_rules (case : string)
    (test : option string) (data : MountData) (w w' : World) :
  case <> "" ->
  __mount_data__ (self w) = Some data ->
  is_build (self w) = false ->
  build (Some case) test None w = (Ok tt, w') ->
  exists cls boxes,
    load_case_from_suite case (self w) = Ok cls /\
    load_tests_from_case cls (MountData_config data) test
      (extensions (context (self w'))) = Ok boxes /\
    case_instances (self w') = case_instances (self w) ++ boxes.
Proof.
  intros Hcase Hdata Hbuild Hrun.
  assert (Hmount : __is_mount__ (self w) = true)
    by (unfold __is_mount__; now rewrite Hdata).
  destruct (build_course _ _ _ _ Hmount Hbuild Hrun)
    as (w1 & w2 & Hinstall & Hcases & ->).
  destruct (extensions_grow_suite _ _
              (keeps_install_extensions _ _ _ Hinstall))
    as (Hinst1 & Hclasses1 & _ & Hdata1).
  rewrite Hdata in Hdata1.
  rewrite (truthy_nonempty _ Hcase), andb_false_r in Hcases.
  unfold __build__ in Hcases.
  rewrite (truthy_nonempty _ Hcase), bind_get_self, bind_lift in Hcases.
  change (default "" (Some case)) with case in Hcases.
  assert (Hlookup : load_case_from_suite case (self w1) =
                    load_case_from_suite case (self w))
    by (unfold load_case_from_suite; now rewrite Hclasses1).
  destruct (load_case_from_suite case (self w1)) as [cls | e] eqn:Hcls;
    [| discriminate].
  rewrite (bind_ok _ _ _ _ _ (config_mounted w1 data Hdata1)),
    bind_get_self, bind_lift in Hcases.
  destruct (load_tests_from_case cls (MountData_config data) test
              (extensions (context (self w1)))) as [boxes | e] eqn:Hload;
    [| discriminate].
  inversion Hcases. subst w2. exists cls, boxes. cbn.
  split; [now rewrite <- Hlookup |]. split; [exact Hload |].
  now rewrite Hinst1.
Qed.

Lemma run_without_cases w :
  is_build (self w) = true -> case_instances (self w) = [] ->
  run w = (Ok tt, marked_run w).
Proof.
  intros Hbuild Hcases. unfold run, build_method, __is_build__.
  rewrite bind_get_self, Hbuild, bind_modify_self, bind_get. cbn.
  rewrite Hcases. now rewrite orb_true_r.
Qed.

(** X17.  A suite without registered cases, without build rules and
    without case instances, built without a case name, is built and has
    no case instance: it is falsy, it iterates over nothing, and [run] on
    it returns at once, with only the "is run" flag set. *)
Theorem empty_suite_builds_and_runs_empty (case test : option string)
    (data : MountData) (w w' : World) :
  __mount_data__ (self w) = Some data ->
  is_build (self w) = false ->
  case_classes (self w) = [] ->
  build_rules (context (self w)) = [] ->
  case_instances (self w) = [] ->
  truthy case = false ->
  build case test None w = (Ok tt, w') ->
  __bool__ (self w') = false /\
  __iter__ (self w') = [] /\
  run w' = (Ok tt, marked_run w').
Proof.
  intros Hdata Hbuild Hclasses Hrules Hinstances Hcase Hrun.
  assert (Hmount : __is_mount__ (self w) = true)
    by (unfold __is_mount__; now rewrite Hdata).
  destruct (build_course _ _ _ _ Hmount Hbuild Hrun)
    as (w1 & w2 & Hinstall & Hcases & ->).
  destruct (extensions_grow_suite _ _
              (keeps_install_extensions _ _ _ Hinstall))
    as (Hinst1 & Hclasses1 & Hrules1 & _).
  rewrite Hrules in Hrules1. rewrite Hclasses in Hclasses1.
  rewrite Hinstances in Hinst1. rewrite Hrules1 in Hcases.
  cbn [is_empty negb andb] in Hcases.
  unfold __build__ in Hcases.
  rewrite Hcase, bind_get_self, Hclasses1 in Hcases.
  inversion Hcases. subst w2.
  assert (Hnone : case_instances
            (self (set_self (set_is_build true (self w1)) w1)) = [])
    by exact Hinst1.
  unfold __bool__, __nonzero__, __iter__. rewrite Hnone.
  repeat split. now apply run_without_cases.
Qed.

End BuildMore.

(** ** suite: the map of cases and tests *)

Section CaseMap.
Import suite.
Context `{Loader}.

Lemma dict_fold_lookup {V} (pairs : list (string * V)) (m : gmap string V)
    (k : string) (v : V) :
  foldl (fun mp kv => <[fst kv := snd kv]> mp) m pairs !! k = Some v ->
  m !! k = Some v \/ In (k, v) pairs.
Proof.
  revert m. induction pairs as [| [k' v'] pairs IH]; intros m; cbn.
  - now left.
  - intros Hlookup. destruct (IH _ Hlookup) as [Hm | Hin]; [| now right; right].
    destruct (decide (k' = k)) as [-> | Hne].
    + rewrite lookup_insert_eq in Hm. inversion Hm. right. now left.
    + rewrite lookup_insert_ne in Hm by assumption. now left.
Qed.

Lemma dict_fold_is_Some {V} (pairs : list (string * V)) (m : gmap string V)
    (k : string) :
  is_Some (m !! k) \/ In k (List.map fst pairs) ->
  is_Some (foldl (fun mp kv => <[fst kv := snd kv]> mp) m pairs !! k).
Proof.
  revert m. induction pairs as [| [k' v'] pairs IH]; intros m; cbn.
  - intros [Hm | []]. exact Hm.
  - intros Hk. apply IH.
    destruct (decide (k' = k)) as [-> | Hne].
    + left. rewrite lookup_insert_eq. eauto.
    + destruct Hk as [Hm | [Heq | Hin]]; [| contradiction | now right].
      left. now rewrite lookup_insert_ne.
Qed.

Lemma get_map_fold_is_Some (classes : list CaseClass)
    (m : gmap string MapEntry) (n : string) :
  is_Some (foldl (fun mp case_class =>
                    <[case_class_name case_class := map_entry case_class]> mp)
                 m classes !! n) <->
  is_Some (m !! n) \/
  exists cls, In cls classes /\ case_class_name cls = n.
Proof.
  revert m. induction classes as [| c classes IH]; intros m; cbn.
  - split; [now left | intros [Hm | (cls & [] & _)]; exact Hm].
  - rewrite IH, lookup_insert_is_Some. split.
    + intros [[Heq | [_ Hm]] | (cls & Hin & Hname)]; eauto.
    + intros [Hm | (cls & [<- | Hin] & Hname)]; eauto.
      destruct (decide (case_class_name c = n)); auto.
Qed.

Lemma get_map_fold_keeps (after : list CaseClass)
    (m : gmap string MapEntry) (k : string) (v : MapEntry) :
  m !! k = Some v ->
  Forall (fun c => case_class_name c <> k) after ->
  foldl (fun mp case_class =>
           <[case_class_name case_class := map_entry case_class]> mp)
        m after !! k = Some v.
Proof.
  intros Hm Hafter. revert m Hm.
  induction Hafter as [| c after Hc _ IH]; intros m Hm; cbn; [exact Hm |].
  apply IH. now rewrite lookup_insert_ne.
Qed.

(** X18.  [get_map] has an entry exactly for the names of the registered
    case classes; of two registered classes with the same name the later
    one has the entry; and the tests of an entry are exactly the
    attributes of the class whose name begins with the test prefix or is
    the default test name, each with the attribute of the class as its
    value. *)
Theorem get_map_lookup (s : Suite) :
  (forall n,
     is_Some (get_map s !! n) <->
     exists cls, In cls (case_classes s) /\ case_class_name cls = n) /\
  (forall before cls after,
     case_classes s = before ++ cls :: after ->
     Forall (fun c => case_class_name c <> case_class_name cls) after ->
     get_map s !! case_class_name cls = Some (map_entry cls)) /\
  (forall cls atr,
     is_Some (entry_tests (map_entry cls) !! atr) <->
     In atr (dir cls) /\ is_test_name atr = true) /\
  (forall cls atr method,
     entry_tests (map_entry cls) !! atr = Some method ->
     method = getattr cls atr).
Proof.
  unfold get_map. split; [| split; [| split]].
  - intros n. rewrite get_map_fold_is_Some, lookup_empty.
    split; [intros [[x Hx] | Hcls]; [discriminate | exact Hcls] | now right].
  - intros before cls after -> Hafter.
    rewrite foldl_app. cbn [foldl].
    apply get_map_fold_keeps; [apply lookup_insert_eq | exact Hafter].
  - intros cls atr. cbn [map_entry entry_tests]. unfold dict. split.
    + intros [method Hlookup].
      destruct (dict_fold_lookup _ _ _ _ Hlookup) as [Hempty | Hin].
      * rewrite lookup_empty in Hempty. discriminate.
      * apply List.in_map_iff in Hin as (a & [= <- _] & Hin).
        now apply List.filter_In in Hin.
    + intros [Hin Htest]. apply dict_fold_is_Some. right.
      rewrite List.map_map. cbn. rewrite List.map_id.
      apply List.filter_In. auto.
  - intros cls atr method. cbn [map_entry entry_tests]. unfold dict.
    intros Hlookup.
    destruct (dict_fold_lookup _ _ _ _ Hlookup) as [Hempty | Hin].
    + rewrite lookup_empty in Hempty. discriminate.
    + now apply List.in_map_iff in Hin as (a & [= <- <-] & _).
Qed.

End CaseMap.

(** [get_map_lookup] on a suite with two registered classes of the name
    "LoginCase": the entry is that of the later one, and "test_ok" is
    among its tests while "setup" is not. *)
Lemma get_map_lookup_witness :
  let later := {| suite.case_class_name := "LoginCase";
                  suite.case_class_tests := ["test_ok"] |} in
  let s := suite.new_suite None [suite.login_case; later] in
  suite.get_map (H := suite.sample_loader_names) s !! "LoginCase" =
    Some (suite.map_entry (H := suite.sample_loader_names) later) /\
  is_Some (suite.entry_tests
             (suite.map_entry (H := suite.sample_loader_names) later)
             !! "test_ok") /\
  ~ is_Some (suite.entry_tests
               (suite.map_entry (H := suite.sample_loader_names) later)
               !! "setup").
Proof.
  intros later s.
  destruct (get_map_lookup (H := suite.sample_loader_names) s)
    as (_ & Hlater & Htests & _).
  split; [| split].
  - apply (Hlater [suite.login_case] later []); [reflexivity | constructor].
  - apply Htests. split; [right; right; left; reflexivity | reflexivity].
  - intros Hsome. apply Htests in Hsome as [_ Htest]. discriminate Htest.
Defined.

(** [build_keeps_installed_extensions] and [build_only_appends] on the
    build of the mounted sample suite. *)
Lemma build_keeps_installed_extensions_witness :
  let off := suite.sample_config false false false in
  suite.installed_kept (suite.mounted_world None off)
                       (suite.built_world None off).
Proof.
  intros off.
  apply (proj2 (build_keeps_installed_extensions (H := suite.calm)
                  (suite.mounted_world None off) (Ok tt)
                  (suite.built_world None off)) None None None).
  vm_compute. reflexivity.
Defined.

Lemma build_only_appends_witness :
  let off := suite.sample_config false false false in
  suite.cases_kept (suite.mounted_world None off)
                   (suite.built_world None off).
Proof.
  intros off.
  apply (build_only_appends (H := suite.calm) None None
           (suite.mounted_world None off) (Ok tt)
           (suite.built_world None off)).
  vm_compute. reflexivity.
Defined.

(** [build_all_in_order] on the mounted sample suite, built with a test
    name but no case name. *)
Lemma build_all_in_order_witness :
  let off := suite.sample_config false false false in
  let w := suite.mounted_world None off in
  let w' := suite.after (suite.build (H := suite.calm) None
                           (Some "test_ok") None) w in
  exists boxes,
    Forall2 (fun cls bs =>
               suite.load_tests_from_case (Environment := suite.calm)
                 cls off None
                 (suite.extensions (suite.context (suite.self w'))) = Ok bs)
            (suite.case_classes (suite.self w)) boxes /\
    suite.case_instances (suite.self w') =
      suite.case_instances (suite.self w) ++ concat boxes.
Proof.
  intros off w w'.
  apply (build_all_in_order (H := suite.calm) (Some "test_ok") None
           {| suite.MountData_config := off |} w w');
    vm_compute; reflexivity.
Defined.

(** [build_named_case_overrides_rules] on the mounted sample suite with
    a build rule for another case, built for "LoginCase" and "test_ok". *)
Lemma build_named_case_overrides_rules_witness :
  let off := suite.sample_config false false false in
  let rule := {| suite.suite_name := "smoke";
                 suite.case_name := Some "LogoutCase";
                 suite.test_name := None |} in
  let w := suite.after (suite.assign_build_rule rule)
             (suite.mounted_world None off) in
  let w' := suite.after (suite.build (H := suite.calm) (Some "LoginCase")
                           (Some "test_ok") None) w in
  exists cls boxes,
    suite.load_case_from_suite "LoginCase" (suite.self w) = Ok cls /\
    suite.load_tests_from_case (Environment := suite.calm) cls off
      (Some "test_ok")
      (suite.extensions (suite.context (suite.self w'))) = Ok boxes /\
    suite.case_instances (suite.self w') =
      suite.case_instances (suite.self w) ++ boxes.
Proof.
  intros off rule w w'.
  apply (build_named_case_overrides_rules (H := suite.calm) "LoginCase"
           (Some "test_ok") {| suite.MountData_config := off |} w w');
    [discriminate | vm_compute; reflexivity ..].
Defined.

(** [empty_suite_builds_and_runs_empty] on the sample suite without any
    registered case. *)
Lemma empty_suite_builds_and_runs_empty_witness :
  let off := suite.sample_config false false false in
  let w := suite.after (suite.mount_to (H := suite.calm))
             (suite.new_world (suite.new_suite None []) off) in
  suite.__bool__ (suite.self suite.empty_built_world) = false /\
  suite.__iter__ (suite.self suite.empty_built_world) = [] /\
  suite.run (H := suite.calm) suite.empty_built_world =
    (Ok tt, suite.marked_run suite.empty_built_world).
Proof.
  intros off w.
  apply (empty_suite_builds_and_runs_empty (H := suite.calm) None None
           {| suite.MountData_config := off |} w suite.empty_built_world);
    vm_compute; reflexivity.
Defined.
